(** * Transaction entity and compact fixed-width blob kind of the core package

    A shallow embedding of
    - [packages/core/src/encoding/rlp/helpers/compactfixedhexblobkind.ts]
    - [packages/core/src/transaction/transaction.ts]

    JavaScript values are modelled as follows: a [Buffer] is a list of bytes,
    a [number] that the code uses as an integer is a [Z], a property that may
    be [undefined] is an [option], a [throw] is the [Throw] branch of
    [result].  Numbers that are not integers (fractions, NaN, infinities) are
    outside the model. *)

From Stdlib Require Import ZArith Lia Strings.Byte Ascii String DecimalString.
From stdpp Require Import base tactics option list strings.

Local Open Scope Z_scope.

(* ===================================================================== *)
(** ** Errors and the result of a computation that may throw *)
(* ===================================================================== *)

(** The errors the two files raise.  The first five are the constants
    [ERRORS.TRANSACTION.*] and [ERRORS.ADDRESS.INVALID_ADDRESS]; [RlpError] is
    what [createRlpError context message] builds; [RangeError] is the
    platform's error of [String.prototype.repeat] on a negative count;
    [ExternalError] stands for whatever an injected capability throws. *)
Inductive Error : Type :=
| INVALID_TRANSACTION_BODY
| INVALID_SIGNATURE
| NOT_SIGNED
| NOT_DELEGATED
| INVALID_ADDRESS
| RlpError (context message : string)
| RangeError
| ExternalError (message : string).

Inductive result (A : Type) : Type :=
| Ok (a : A)
| Throw (e : Error).
Arguments Ok {A} a.
Arguments Throw {A} e.

#[global] Instance result_ret : MRet result := fun A a => Ok a.
#[global] Instance result_bind : MBind result := fun A B f m =>
  match m with
  | Ok a => f a
  | Throw e => Throw e
  end.

Definition createRlpError (context message : string) : Error :=
  RlpError context message.

Definition isRlpError (e : Error) : bool :=
  match e with RlpError _ _ => true | _ => false end.

(* ===================================================================== *)
(** ** Platform primitives: Buffer and String *)
(* ===================================================================== *)

Definition Buffer : Type := list byte.

Module Buf.

(** [buffer.length] *)
Definition length (buffer : Buffer) : Z := Z.of_nat (List.length buffer).

(** [buffer.findIndex(p)]: the index of the first byte satisfying [p],
    [-1] when there is none. *)
Fixpoint findIndexFrom (p : byte -> bool) (buffer : Buffer) (i : Z) : Z :=
  match buffer with
  | [] => -1
  | b :: rest => if p b then i else findIndexFrom p rest (i + 1)
  end.

Definition findIndex (p : byte -> bool) (buffer : Buffer) : Z :=
  findIndexFrom p buffer 0.

(** A relative index of [subarray]: negative counts from the end, and the
    result is clamped to [0 .. len]. *)
Definition relativeIndex (len i : Z) : Z :=
  if i <? 0 then Z.max (len + i) 0 else Z.min i len.

(** [buffer.subarray(start, end)] *)
Definition subarray (buffer : Buffer) (start end_ : Z) : Buffer :=
  let len := length buffer in
  let s := relativeIndex len start in
  let e := relativeIndex len end_ in
  take (Z.to_nat (e - s)) (drop (Z.to_nat s) buffer).

(** [buffer.subarray(start)]: [end] defaults to the length. *)
Definition subarrayFrom (buffer : Buffer) (start : Z) : Buffer :=
  subarray buffer start (length buffer).

(** [Buffer.alloc(n)]: [n] zero bytes. *)
Definition alloc (n : nat) : Buffer := replicate n x00.

(** The lowercase hexadecimal digit of a nibble. *)
Definition hexChar (n : N) : ascii :=
  match n with
  | 0%N => "0" | 1%N => "1" | 2%N => "2" | 3%N => "3"
  | 4%N => "4" | 5%N => "5" | 6%N => "6" | 7%N => "7"
  | 8%N => "8" | 9%N => "9" | 10%N => "a" | 11%N => "b"
  | 12%N => "c" | 13%N => "d" | 14%N => "e" | _ => "f"
  end%char.

(** The value of a hexadecimal digit, either case. *)
Definition hexValue (c : ascii) : option N :=
  let n := N_of_ascii c in
  if ((48 <=? n) && (n <=? 57))%N then Some (n - 48)%N
  else if ((97 <=? n) && (n <=? 102))%N then Some (n - 87)%N
  else if ((65 <=? n) && (n <=? 70))%N then Some (n - 55)%N
  else None.

Definition byteOfNibbles (hi lo : N) : byte :=
  default x00 (Byte.of_N (16 * hi + lo)).

(** [buffer.toString('hex')]: two lowercase digits per byte. *)
Fixpoint toHex (buffer : Buffer) : string :=
  match buffer with
  | [] => EmptyString
  | b :: rest =>
      String (hexChar (Byte.to_N b / 16))
        (String (hexChar (Byte.to_N b mod 16)) (toHex rest))
  end.

(** [Buffer.from(s, 'hex')]: decodes pairs of hexadecimal digits and stops
    at the first pair that is not one; a trailing single character is
    dropped. *)
Fixpoint fromHex (s : string) : Buffer :=
  match s with
  | String h (String l rest) =>
      match hexValue h, hexValue l with
      | Some a, Some b => byteOfNibbles a b :: fromHex rest
      | _, _ => []
      end
  | _ => []
  end.

End Buf.

Module Str.

(** [s.slice(n)] for [0 <= n]: the string without its first [n]
    characters. *)
Fixpoint slice (n : nat) (s : string) : string :=
  match n, s with
  | O, _ => s
  | S n', String _ rest => slice n' rest
  | S _, EmptyString => EmptyString
  end.

Fixpoint repeatNat (s : string) (n : nat) : string :=
  match n with
  | O => EmptyString
  | S n' => s +:+ repeatNat s n'
  end.

(** [s.repeat(count)]: throws a RangeError on a negative count. *)
Definition repeat (s : string) (count : Z) : result string :=
  if count <? 0 then Throw RangeError
  else Ok (repeatNat s (Z.to_nat count)).

(** The decimal rendering of an integer in a template literal. *)
Definition ofNumber (n : Z) : string :=
  NilZero.string_of_int (Z.to_int n).

End Str.

(* ===================================================================== *)
(** ** compactfixedhexblobkind.ts *)
(* ===================================================================== *)

Definition isZeroByte (b : byte) : bool := Byte.eqb b x00.

Definition assertCompactFixedHexBlobBuffer
    (buffer : Buffer) (context : string) (bytes : Z) : result unit :=
  if Buf.length buffer >? bytes then
    Throw (createRlpError context
             ("expected buffer to be at most " +:+ Str.ofNumber bytes +:+ " bytes"))
  else if negb (Buf.length buffer =? 0)
          && match buffer with b :: _ => isZeroByte b | [] => false end then
    Throw (createRlpError context "expected no leading zero bytes")
  else Ok tt.

Definition encodeCompactFixedHexBlob (buffer : Buffer) : Buffer :=
  let zeroIndex := Buf.findIndex (fun byte => negb (isZeroByte byte)) buffer in
  if negb (zeroIndex =? -1) then Buf.subarrayFrom buffer zeroIndex
  else Buf.alloc 0.

Definition decodeBufferToHexWithLeadingZeros
    (buffer : Buffer) (bytes : Z) : result string :=
  zeros ← Str.repeat "0" ((bytes - Buf.length buffer) * 2);
  Ok ("0x" +:+ zeros +:+ Buf.toHex buffer).

(** Modelled from the spec: the decode method of the compact fixed-width blob
    kind, whose class is not in these two files.  Section 4.2: decode
    "asserts decode-time that the raw buffer length did not exceed the
    declared maximum and contained no leading zero byte" and "re-pads with
    zero bytes on the left until it reaches the declared total width". *)
Definition decodeCompactFixedHexBlob
    (buffer : Buffer) (context : string) (bytes : Z) : result string :=
  _ ← assertCompactFixedHexBlobBuffer buffer context bytes;
  decodeBufferToHexWithLeadingZeros buffer bytes.

(* ===================================================================== *)
(** ** JavaScript operators used by transaction.ts *)
(* ===================================================================== *)

Module JS.

(** ToInt32 of an integral number: reduction modulo 2^32 into
    [-2^31 .. 2^31 - 1]. *)
Definition ToInt32 (n : Z) : Z :=
  let m := n mod 2 ^ 32 in
  if m >=? 2 ^ 31 then m - 2 ^ 32 else m.

(** [a & b]: both operands go through ToInt32. *)
Definition bitand (a b : Z) : Z := Z.land (ToInt32 a) (ToInt32 b).

(** [o !== undefined] *)
Definition isDefined {A} (o : option A) : bool :=
  match o with Some _ => true | None => false end.

(** [a.pop()] as a function of the array: the array without its last
    element. *)
Definition pop {A} (a : list A) : list A := removelast a.

End JS.

(* ===================================================================== *)
(** ** Types of transaction.ts *)
(* ===================================================================== *)

(** [string | number] *)
Inductive StringOrNumber : Type :=
| OfNumber (n : Z)
| OfString (s : string).

(** A clause; [to = None] is [null] (contract creation). *)
Record TransactionClause : Type := {
  to : option string;
  value : StringOrNumber;
  data : string
}.

(** [reserved?: { features?: number; unused?: Buffer[] }] *)
Record Reserved : Type := {
  features : option Z;
  unused : option (list Buffer)
}.

(** The body as the constructor receives it at run time: every property may
    be [undefined] ([None]).  [dependsOn] is [string | null], so it has three
    cases: [None] (undefined), [Some None] (null), [Some (Some id)]. *)
Record TransactionBody : Type := {
  chainTag : option Z;
  blockRef : option string;
  expiration : option Z;
  clauses : option (list TransactionClause);
  gasPriceCoef : option Z;
  gas : option StringOrNumber;
  dependsOn : option (option string);
  nonce : option StringOrNumber;
  reserved : option Reserved
}.

(** What [_encode] hands to the RLP profiler: the body's properties with
    [reserved] replaced by the encoded reserved field, and the signature
    added for the signed profile. *)
Record RLPValidObject : Type := {
  obj_chainTag : option Z;
  obj_blockRef : option string;
  obj_expiration : option Z;
  obj_clauses : option (list TransactionClause);
  obj_gasPriceCoef : option Z;
  obj_gas : option StringOrNumber;
  obj_dependsOn : option (option string);
  obj_nonce : option StringOrNumber;
  obj_reserved : list Buffer;
  obj_signature : option Buffer
}.

(** A named scalar kind, as [TRANSACTION_FEATURES_KIND]:
    [kind_encode v ctx] is [kind.data(v, ctx).encode()]. *)
Record NamedKind : Type := {
  name : string;
  kind_encode : Z -> string -> result Buffer
}.

(** An RLP profiler, as [UNSIGNED_TRANSACTION_RLP]. *)
Record RLPProfiler : Type := {
  encodeObject : RLPValidObject -> result Buffer
}.

(** What transaction.ts imports from modules that are not part of this
    development: the address helpers, the hash, public-key recovery, the hex
    test of [dataUtils] and the RLP profiles. *)
Class Imports : Type := {
  address_isAddress : string -> bool;
  address_fromPublicKey : Buffer -> string;
  blake2b256 : Buffer -> Buffer;
  secp256k1_recover : Buffer -> Buffer -> result Buffer;
  dataUtils_isHexString : string -> bool;
  TRANSACTION_FEATURES_KIND : NamedKind;
  UNSIGNED_TRANSACTION_RLP : RLPProfiler;
  SIGNED_TRANSACTION_RLP : RLPProfiler
}.

(** Modelled from the spec: the constant [SIGNATURE_LENGTH] of utils, "65
    bytes when undelegated, 130 bytes when delegated". *)
Definition SIGNATURE_LENGTH : Z := 65.

(** Modelled from the spec: the constant [BLOCKREF_LENGTH] of utils,
    "blockRef decodes to exactly 8 bytes". *)
Definition BLOCKREF_LENGTH : Z := 8.

Record Transaction : Type := {
  body : TransactionBody;
  signature : option Buffer
}.

(* ===================================================================== *)
(** ** transaction.ts: class Transaction *)
(* ===================================================================== *)

Section TransactionClass.

Context `{env : Imports}.

(** Modelled from the spec: [blake2b256(data, 'hex')], the digest rendered
    as a hex string; Section 6: "all hex strings are 0x-prefixed,
    lowercase". *)
Definition blake2b256_hex (data : Buffer) : string :=
  "0x" +:+ Buf.toHex (blake2b256 data).

(* ---------- internal private functions ---------- *)

Definition _isDelegated (body : TransactionBody) : bool :=
  let reserved := default {| features := None; unused := None |} (reserved body) in
  let features := default 0 (features reserved) in
  JS.bitand features 1 =? 1.

Definition _isSignatureValid (this_body : TransactionBody) (signature : Buffer) : bool :=
  let expectedSigatureLength :=
    if _isDelegated this_body then SIGNATURE_LENGTH * 2 else SIGNATURE_LENGTH in
  Buf.length signature =? expectedSigatureLength.

Definition _isValidBody (body : TransactionBody) : bool :=
  match chainTag body with
  | Some tag => (tag >=? 0) && (tag <=? 255)
  | None => false
  end
  && match blockRef body with
     | Some ref =>
         dataUtils_isHexString ref
         && (Buf.length (Buf.fromHex (Str.slice 2 ref)) =? BLOCKREF_LENGTH)
     | None => false
     end
  && JS.isDefined (expiration body)
  && JS.isDefined (clauses body)
  && JS.isDefined (gasPriceCoef body)
  && JS.isDefined (gas body)
  && JS.isDefined (dependsOn body)
  && JS.isDefined (nonce body).

(** One turn of the loop that trims the features list: [Some l'] when the
    turn pops the last entry and the loop goes on with [l'], [None] when
    the loop ends (the list is empty, or [break]). *)
Definition trimTurn (featuresList : list Buffer) : option (list Buffer) :=
  if 0 <? Z.of_nat (length featuresList) then
    match last featuresList with
    | Some entry =>
        if Buf.length entry =? 0 then Some (JS.pop featuresList) else None
    | None => None
    end
  else None.

(** The loop, with a bound on the number of turns. *)
Fixpoint trimLoop (turns : nat) (featuresList : list Buffer) : list Buffer :=
  match turns with
  | O => featuresList
  | S turns' =>
      match trimTurn featuresList with
      | Some popped => trimLoop turns' popped
      | None => featuresList
      end
  end.

(** Every turn pops one entry, so the length of the list bounds the number
    of turns ([trimLoop_terminates] below). *)
Definition trimFeaturesList (featuresList : list Buffer) : list Buffer :=
  trimLoop (length featuresList) featuresList.

Definition _encodeReservedField (this : Transaction) : result (list Buffer) :=
  let reserved := default {| features := None; unused := None |} (reserved (body this)) in
  let featuresKind := TRANSACTION_FEATURES_KIND in
  encodedFeatures ← kind_encode featuresKind
                      (default 0 (features reserved))
                      (name TRANSACTION_FEATURES_KIND);
  let featuresList := encodedFeatures :: default [] (unused reserved) in
  Ok (trimFeaturesList featuresList).

Definition _lowLevelEncodeTransactionBodyWithRLP
    (this : Transaction) (body : RLPValidObject) (isSigned : bool) : result Buffer :=
  if isSigned then
    encodeObject SIGNED_TRANSACTION_RLP
      {| obj_chainTag := obj_chainTag body;
         obj_blockRef := obj_blockRef body;
         obj_expiration := obj_expiration body;
         obj_clauses := obj_clauses body;
         obj_gasPriceCoef := obj_gasPriceCoef body;
         obj_gas := obj_gas body;
         obj_dependsOn := obj_dependsOn body;
         obj_nonce := obj_nonce body;
         obj_reserved := obj_reserved body;
         obj_signature := signature this |}
  else encodeObject UNSIGNED_TRANSACTION_RLP body.

Definition _encode (this : Transaction) (isSigned : bool) : result Buffer :=
  reservedField ← _encodeReservedField this;
  _lowLevelEncodeTransactionBodyWithRLP this
    {| obj_chainTag := chainTag (body this);
       obj_blockRef := blockRef (body this);
       obj_expiration := expiration (body this);
       obj_clauses := clauses (body this);
       obj_gasPriceCoef := gasPriceCoef (body this);
       obj_gas := gas (body this);
       obj_dependsOn := dependsOn (body this);
       obj_nonce := nonce (body this);
       obj_reserved := reservedField;
       obj_signature := None |}
    isSigned.

(* ---------- constructor ---------- *)

Definition new_Transaction
    (body : TransactionBody) (signature : option Buffer) : result Transaction :=
  if _isValidBody body then
    match signature with
    | Some sig =>
        if _isSignatureValid body sig
        then Ok {| body := body; signature := Some sig |}
        else Throw INVALID_SIGNATURE
    | None => Ok {| body := body; signature := None |}
    end
  else Throw INVALID_TRANSACTION_BODY.

(* ---------- public getters ---------- *)

Definition isDelegated (this : Transaction) : bool := _isDelegated (body this).

Definition isSigned (this : Transaction) : bool := JS.isDefined (signature this).

Definition getSignatureHash
    (this : Transaction) (delegateFor : option string) : result Buffer :=
  if match delegateFor with
     | Some addr => negb (address_isAddress addr)
     | None => false
     end
  then Throw INVALID_ADDRESS
  else
    encoded ← _encode this false;
    let transactionHash := blake2b256 encoded in
    match delegateFor with
    | Some addr =>
        Ok (blake2b256 (transactionHash ++ Buf.fromHex (Str.slice 2 addr)))
    | None => Ok transactionHash
    end.

Definition encoded (this : Transaction) : result Buffer :=
  _encode this (isSigned this).

Definition origin (this : Transaction) : result string :=
  match signature this with
  | None => Throw NOT_SIGNED
  | Some sig =>
      let signatureSliced := Buf.subarray sig 0 65 in
      hash ← getSignatureHash this None;
      originPublicKey ← secp256k1_recover hash signatureSliced;
      Ok (address_fromPublicKey originPublicKey)
  end.

Definition delegator (this : Transaction) : result string :=
  if negb (isDelegated this) then Throw NOT_DELEGATED
  else
    match signature this with
    | None => Throw NOT_SIGNED
    | Some sig =>
        let signatureSliced := Buf.subarray sig 65 (Buf.length sig) in
        originAddress ← origin this;
        hash ← getSignatureHash this (Some originAddress);
        delegatorPublicKey ← secp256k1_recover hash signatureSliced;
        Ok (address_fromPublicKey delegatorPublicKey)
    end.

Definition id (this : Transaction) : result string :=
  if negb (isSigned this) then Throw NOT_SIGNED
  else
    hash ← getSignatureHash this None;
    originAddress ← origin this;
    Ok (blake2b256_hex (hash ++ Buf.fromHex (Str.slice 2 originAddress))).

End TransactionClass.

(* ===================================================================== *)
(** ** The claims in the words of the specification *)
(* ===================================================================== *)

(** "Encode trims all leading zero bytes, returning an empty buffer if the
    value is entirely zero." *)
Fixpoint trimLeadingZeros (buffer : Buffer) : Buffer :=
  match buffer with
  | [] => []
  | b :: rest => if isZeroByte b then trimLeadingZeros rest else buffer
  end.

(** A buffer is canonical when it is empty or starts with a nonzero byte. *)
Definition canonical (buffer : Buffer) : Prop := head buffer ≠ Some x00.

(** "Trim trailing entries from the end of this list while they are empty
    byte blobs": [trimmed] is [entries] without a last run of empty blobs,
    and no more can be removed. *)
Definition trailingEmptyTrimmed (entries trimmed : list Buffer) : Prop :=
  (∃ dropped, entries = trimmed ++ dropped ∧ Forall (λ e, e = []) dropped)
  ∧ (∀ e, last trimmed = Some e → e ≠ []).

(** The features of a body, "taking features as 0 when reserved or
    reserved.features is absent". *)
Definition featuresOf (body : TransactionBody) : Z :=
  match reserved body with
  | Some r => default 0 (features r)
  | None => 0
  end.

(** The unused entries of a body, empty when absent. *)
Definition unusedOf (body : TransactionBody) : list Buffer :=
  match reserved body with
  | Some r => default [] (unused r)
  | None => []
  end.

(** "chainTag 0–255; blockRef present, hex, exactly 8 bytes after decoding;
    expiration, clauses, gasPriceCoef, gas, dependsOn, nonce all present". *)
Definition bodyComplete `{Imports} (body : TransactionBody) : Prop :=
  (∃ tag, chainTag body = Some tag ∧ 0 <= tag <= 255)
  ∧ (∃ ref, blockRef body = Some ref
            ∧ dataUtils_isHexString ref = true
            ∧ length (Buf.fromHex (Str.slice 2 ref)) = 8%nat)
  ∧ expiration body ≠ None
  ∧ clauses body ≠ None
  ∧ gasPriceCoef body ≠ None
  ∧ gas body ≠ None
  ∧ dependsOn body ≠ None
  ∧ nonce body ≠ None.

(** The same without the condition on [dependsOn]: "passing the other
    checks". *)
Definition otherFieldsComplete `{Imports} (body : TransactionBody) : Prop :=
  (∃ tag, chainTag body = Some tag ∧ 0 <= tag <= 255)
  ∧ (∃ ref, blockRef body = Some ref
            ∧ dataUtils_isHexString ref = true
            ∧ length (Buf.fromHex (Str.slice 2 ref)) = 8%nat)
  ∧ expiration body ≠ None
  ∧ clauses body ≠ None
  ∧ gasPriceCoef body ≠ None
  ∧ gas body ≠ None
  ∧ nonce body ≠ None.

(** The body with another [dependsOn] property. *)
Definition withDependsOn (body : TransactionBody) (d : option (option string))
    : TransactionBody :=
  {| chainTag := chainTag body;
     blockRef := blockRef body;
     expiration := expiration body;
     clauses := clauses body;
     gasPriceCoef := gasPriceCoef body;
     gas := gas body;
     dependsOn := d;
     nonce := nonce body;
     reserved := reserved body |}.

(** The body with another [reserved] property. *)
Definition withReserved (body : TransactionBody) (r : option Reserved)
    : TransactionBody :=
  {| chainTag := chainTag body;
     blockRef := blockRef body;
     expiration := expiration body;
     clauses := clauses body;
     gasPriceCoef := gasPriceCoef body;
     gas := gas body;
     dependsOn := dependsOn body;
     nonce := nonce body;
     reserved := r |}.

(* ===================================================================== *)
(** ** Deterministic substitutes for the imports

    Simple stand-ins with the shapes of Section 6 of the specification, used
    to run the class on concrete transactions.  They are not the real
    primitives: no theorem below depends on what they compute. *)
(* ===================================================================== *)

Module Fixture.

Fixpoint allHex (s : string) : bool :=
  match s with
  | EmptyString => true
  | String c rest => bool_decide (is_Some (Buf.hexValue c)) && allHex rest
  end.

Definition isHexString (s : string) : bool :=
  match s with
  | String "0" (String "x" rest) => allHex rest
  | _ => false
  end.

Definition isAddress (s : string) : bool :=
  isHexString s && (Z.of_nat (String.length s) =? 42).

Definition sumByte (data : Buffer) : byte :=
  default x00
    (Byte.of_N (fold_right (λ b acc, (Byte.to_N b + acc) mod 256)%N 0%N data)).

(** A 32-byte stand-in digest. *)
Definition digest (data : Buffer) : Buffer :=
  replicate 31 x00 ++ [sumByte data].

(** A stand-in recovery: it needs a 65-byte signature. *)
Definition recover (messageHash sig : Buffer) : result Buffer :=
  if Buf.length sig =? 65 then Ok (take 19 sig ++ [sumByte messageHash])
  else Throw (ExternalError "invalid signature").

Definition fromPublicKey (publicKey : Buffer) : string :=
  "0x" +:+ Buf.toHex (take 20 (publicKey ++ replicate 20 x00)).

Fixpoint bigEndian (turns : nat) (n : N) (acc : Buffer) : Buffer :=
  match turns with
  | O => acc
  | S turns' =>
      if (n =? 0)%N then acc
      else bigEndian turns' (n / 256)%N
             (default x00 (Byte.of_N (n mod 256)) :: acc)
  end.

(** Modelled from the spec: the compact numeric blob kind (Section 4.2),
    "same trim-on-encode canonical rule, no fixed decode width": the
    big-endian bytes of an unsigned integer without leading zero bytes, so
    zero is the empty buffer. *)
Definition compactNumericEncode (v : Z) (context : string) : result Buffer :=
  if v <? 0 then Throw (RlpError context "expected a non-negative integer")
  else Ok (bigEndian (N.size_nat (Z.to_N v)) (Z.to_N v) []).

Definition featuresKind : NamedKind :=
  {| name := "reserved.features"; kind_encode := compactNumericEncode |}.

(** A stand-in profiler: it lays out the chain tag, the block reference, the
    reserved entries and the signature, and refuses an object without chain
    tag or block reference. *)
Definition layout (obj : RLPValidObject) : result Buffer :=
  match obj_chainTag obj, obj_blockRef obj with
  | Some tag, Some ref =>
      Ok (default x00 (Byte.of_N (Z.to_N tag mod 256))
          :: Buf.fromHex (Str.slice 2 ref)
          ++ concat (obj_reserved obj)
          ++ default [] (obj_signature obj))
  | _, _ => Throw (RlpError "transaction" "missing field")
  end.

Definition imports : Imports :=
  {| address_isAddress := isAddress;
     address_fromPublicKey := fromPublicKey;
     blake2b256 := digest;
     secp256k1_recover := recover;
     dataUtils_isHexString := isHexString;
     TRANSACTION_FEATURES_KIND := featuresKind;
     UNSIGNED_TRANSACTION_RLP := {| encodeObject := layout |};
     SIGNED_TRANSACTION_RLP := {| encodeObject := layout |} |}.

(** A complete body, after the test vector of the specification
    ([chainTag = 0x4a]). *)
Definition body0 : TransactionBody :=
  {| chainTag := Some 74;
     blockRef := Some "0x00634b0a00639801"%string;
     expiration := Some 32;
     clauses := Some [];
     gasPriceCoef := Some 0;
     gas := Some (OfNumber 21000);
     dependsOn := Some None;
     nonce := Some (OfNumber 1);
     reserved := None |}.

Definition delegatedBody0 : TransactionBody :=
  {| chainTag := Some 74;
     blockRef := Some "0x00634b0a00639801"%string;
     expiration := Some 32;
     clauses := Some [];
     gasPriceCoef := Some 0;
     gas := Some (OfNumber 21000);
     dependsOn := Some None;
     nonce := Some (OfNumber 1);
     reserved := Some {| features := Some 1; unused := None |} |}.

Definition signature65 : Buffer := replicate 64 x07 ++ [x01].

Definition address0 : string := "0x7567d83b7b8d80addcb281a71d54fc7b3364ffed".

End Fixture.

(** More sample data for the substitutes of [Fixture]. *)
Module Samples.

(** Two 65-byte signatures, the origin's then the delegator's. *)
Definition signature130 : Buffer :=
  Fixture.signature65 ++ replicate 64 x09 ++ [x00].

(** The same origin signature with another second half. *)
Definition signature130b : Buffer :=
  Fixture.signature65 ++ replicate 64 x0b ++ [x01].

(** A body whose features the compact numeric kind refuses. *)
Definition negativeFeaturesBody : TransactionBody :=
  withReserved Fixture.body0 (Some {| features := Some (-1); unused := None |}).

(** A body with the default features written out and two empty extension
    slots. *)
Definition defaultReservedBody : TransactionBody :=
  withReserved Fixture.body0
    (Some {| features := Some 0; unused := Some [[]; []] |}).

End Samples.

(* ===================================================================== *)
(** * Properties *)
(* ===================================================================== *)

(** ** Buffers and hexadecimal strings *)

Lemma Buf_length_nil : Buf.length [] = 0.
Proof. reflexivity. Qed.

Lemma Buf_length_cons b (buffer : Buffer) :
  Buf.length (b :: buffer) = Buf.length buffer + 1.
Proof. unfold Buf.length. cbn [List.length]. lia. Qed.

Lemma Buf_length_nonneg (buffer : Buffer) : 0 <= Buf.length buffer.
Proof. unfold Buf.length. lia. Qed.

Lemma Buf_length_app (a b : Buffer) :
  Buf.length (a ++ b) = Buf.length a + Buf.length b.
Proof. unfold Buf.length. rewrite length_app. lia. Qed.

Lemma isZeroByte_true b : isZeroByte b = true ↔ b = x00.
Proof.
  unfold isZeroByte. split.
  - intros E. now apply Byte.byte_dec_bl in E.
  - intros ->. reflexivity.
Qed.

Lemma isZeroByte_false b : isZeroByte b = false ↔ b ≠ x00.
Proof.
  rewrite <- isZeroByte_true. destruct (isZeroByte b); split; congruence.
Qed.

(** Reading back the two digits written for a byte gives the byte. *)
Lemma hex_digits_of_byte b :
  Buf.hexValue (Buf.hexChar (Byte.to_N b / 16)) = Some (Byte.to_N b / 16)%N
  ∧ Buf.hexValue (Buf.hexChar (Byte.to_N b mod 16)) = Some (Byte.to_N b mod 16)%N
  ∧ Buf.byteOfNibbles (Byte.to_N b / 16) (Byte.to_N b mod 16) = b.
Proof. destruct b; repeat split; vm_compute; reflexivity. Qed.

Lemma fromHex_toHex (buffer : Buffer) : Buf.fromHex (Buf.toHex buffer) = buffer.
Proof.
  induction buffer as [|b rest IH]; [reflexivity|].
  destruct (hex_digits_of_byte b) as (Hhi & Hlo & Hb).
  cbn [Buf.toHex Buf.fromHex]. rewrite Hhi, Hlo, Hb, IH. reflexivity.
Qed.

Lemma toHex_app (a b : Buffer) : Buf.toHex (a ++ b) = Buf.toHex a +:+ Buf.toHex b.
Proof.
  induction a as [|x a IH]; [reflexivity|].
  cbn [app Buf.toHex String.append]. now rewrite IH.
Qed.

Lemma toHex_alloc (n : nat) : Buf.toHex (Buf.alloc n) = Str.repeatNat "0" (2 * n).
Proof.
  induction n as [|n IH]; [reflexivity|].
  replace (2 * S n)%nat with (S (S (2 * n))) by lia.
  unfold Buf.alloc in *. cbn [replicate Buf.toHex Str.repeatNat]. rewrite IH.
  reflexivity.
Qed.

Lemma slice_0x (s : string) : Str.slice 2 ("0x" +:+ s) = s.
Proof. reflexivity. Qed.

(** ** [encodeCompactFixedHexBlob] trims the leading zero bytes *)

Lemma findIndexFrom_nonzero (buffer : Buffer) (i : Z) :
  (trimLeadingZeros buffer = []
   ∧ Buf.findIndexFrom (λ byte, negb (isZeroByte byte)) buffer i = -1)
  ∨ (∃ k : nat,
        (k < length buffer)%nat
        ∧ Buf.findIndexFrom (λ byte, negb (isZeroByte byte)) buffer i = i + Z.of_nat k
        ∧ drop k buffer = trimLeadingZeros buffer).
Proof.
  revert i. induction buffer as [|b rest IH]; intros i.
  - left. split; reflexivity.
  - cbn [Buf.findIndexFrom trimLeadingZeros].
    destruct (isZeroByte b) eqn:Hb; cbn [negb].
    + destruct (IH (i + 1)) as [[Ht Hf]|(k & Hk & Hf & Hd)].
      * left. split; assumption.
      * right. exists (S k). cbn [List.length drop]. repeat split; [lia|lia|exact Hd].
    + right. exists 0%nat. cbn [List.length drop]. repeat split; lia.
Qed.

Lemma subarrayFrom_drop (buffer : Buffer) (k : nat) :
  (k < length buffer)%nat →
  Buf.subarrayFrom buffer (Z.of_nat k) = drop k buffer.
Proof.
  intros Hk. unfold Buf.subarrayFrom, Buf.subarray, Buf.relativeIndex, Buf.length.
  destruct (Z.ltb_spec (Z.of_nat k) 0) as [?|_]; [lia|].
  destruct (Z.ltb_spec (Z.of_nat (length buffer)) 0) as [?|_]; [lia|].
  rewrite Z.min_id, Z.min_l by lia. rewrite Nat2Z.id.
  apply take_ge. rewrite length_drop. lia.
Qed.

Lemma encodeCompactFixedHexBlob_trim (buffer : Buffer) :
  encodeCompactFixedHexBlob buffer = trimLeadingZeros buffer.
Proof.
  unfold encodeCompactFixedHexBlob, Buf.findIndex.
  destruct (findIndexFrom_nonzero buffer 0) as [[Ht Hf]|(k & Hk & Hf & Hd)].
  - rewrite Hf, Ht. reflexivity.
  - rewrite Hf. destruct (Z.eqb_spec (0 + Z.of_nat k) (-1)) as [?|_]; [lia|].
    cbn [negb]. rewrite Z.add_0_l, subarrayFrom_drop by exact Hk. exact Hd.
Qed.

Lemma trimLeadingZeros_canonical (buffer : Buffer) :
  canonical (trimLeadingZeros buffer).
Proof.
  unfold canonical. induction buffer as [|b rest IH]; [discriminate|].
  cbn [trimLeadingZeros]. destruct (isZeroByte b) eqn:Hb; [exact IH|].
  apply isZeroByte_false in Hb. cbn. congruence.
Qed.

Lemma trimLeadingZeros_split (buffer : Buffer) :
  ∃ zeros, buffer = zeros ++ trimLeadingZeros buffer ∧ Forall (λ b, b = x00) zeros.
Proof.
  induction buffer as [|b rest (zeros & Hsplit & Hzeros)].
  - exists []. split; [reflexivity|constructor].
  - cbn [trimLeadingZeros]. destruct (isZeroByte b) eqn:Hb.
    + apply isZeroByte_true in Hb. exists (b :: zeros). split.
      * cbn [app]. congruence.
      * constructor; assumption.
    + exists []. split; [reflexivity|constructor].
Qed.

Lemma trimLeadingZeros_id (buffer : Buffer) :
  canonical buffer → trimLeadingZeros buffer = buffer.
Proof.
  unfold canonical. destruct buffer as [|b rest]; [reflexivity|].
  cbn. intros Hb. destruct (isZeroByte b) eqn:E; [|reflexivity].
  apply isZeroByte_true in E. congruence.
Qed.

Lemma trimLeadingZeros_padded (n : nat) (blob : Buffer) :
  canonical blob → trimLeadingZeros (Buf.alloc n ++ blob) = blob.
Proof.
  intros Hc. induction n as [|n IH]; [now apply trimLeadingZeros_id|exact IH].
Qed.

(** ** [assertCompactFixedHexBlobBuffer]: what it accepts *)

Lemma assertCompactFixedHexBlobBuffer_accepts
    (buffer : Buffer) (context : string) (bytes : Z) :
  Buf.length buffer <= bytes → canonical buffer →
  assertCompactFixedHexBlobBuffer buffer context bytes = Ok tt.
Proof.
  unfold assertCompactFixedHexBlobBuffer, canonical. intros Hlen Hc.
  destruct (Z.gtb_spec (Buf.length buffer) bytes) as [?|_]; [lia|].
  destruct buffer as [|b rest]; [reflexivity|].
  destruct (isZeroByte b) eqn:Hb.
  - apply isZeroByte_true in Hb. cbn in Hc. congruence.
  - rewrite andb_false_r. reflexivity.
Qed.

Lemma assertCompactFixedHexBlobBuffer_rejects
    (buffer : Buffer) (context : string) (bytes : Z) :
  Buf.length buffer > bytes ∨ head buffer = Some x00 →
  ∃ e, assertCompactFixedHexBlobBuffer buffer context bytes = Throw e
       ∧ isRlpError e = true.
Proof.
  unfold assertCompactFixedHexBlobBuffer. intros Hbad.
  destruct (Z.gtb_spec (Buf.length buffer) bytes) as [Hgt|Hle].
  - eexists. split; reflexivity.
  - destruct Hbad as [?|Hz]; [lia|].
    destruct buffer as [|b rest]; [discriminate|].
    cbn in Hz. injection Hz as ->.
    rewrite Buf_length_cons.
    destruct (Z.eqb_spec (Buf.length rest + 1) 0) as [E|_].
    + pose proof (Buf_length_nonneg rest). lia.
    + eexists. split; reflexivity.
Qed.

Lemma decodeBufferToHexWithLeadingZeros_padded (buffer : Buffer) (bytes : Z) :
  Buf.length buffer <= bytes →
  decodeBufferToHexWithLeadingZeros buffer bytes
  = Ok ("0x" +:+ Buf.toHex (Buf.alloc (Z.to_nat (bytes - Buf.length buffer)) ++ buffer)).
Proof.
  intros Hlen. unfold decodeBufferToHexWithLeadingZeros, Str.repeat.
  destruct (Z.ltb_spec ((bytes - Buf.length buffer) * 2) 0) as [?|_]; [lia|].
  cbn [mbind result_bind]. rewrite toHex_app, toHex_alloc.
  replace (Z.to_nat ((bytes - Buf.length buffer) * 2))
    with (2 * Z.to_nat (bytes - Buf.length buffer))%nat by lia.
  reflexivity.
Qed.

Lemma Forall_zero_alloc (zeros : Buffer) :
  Forall (λ b, b = x00) zeros → zeros = Buf.alloc (length zeros).
Proof.
  induction 1 as [|b zeros -> _ IH]; [reflexivity|].
  unfold Buf.alloc in *. cbn [List.length replicate]. now rewrite <- IH.
Qed.

(** The round trip of the kind: a value of exactly [bytes] bytes, leading
    zero bytes allowed, is trimmed by the encoding and restored by the
    decoding. *)
Lemma compactFixedHexBlob_value_roundtrip
    (value : Buffer) (context : string) (bytes : Z) :
  Buf.length value = bytes →
  decodeCompactFixedHexBlob (encodeCompactFixedHexBlob value) context bytes
  = Ok ("0x" +:+ Buf.toHex value).
Proof.
  intros Hlen. rewrite encodeCompactFixedHexBlob_trim.
  destruct (trimLeadingZeros_split value) as (zeros & Hsplit & Hzeros).
  assert (Hsum : Buf.length value
                 = Buf.length zeros + Buf.length (trimLeadingZeros value)).
  { rewrite <- Buf_length_app. now rewrite <- Hsplit. }
  assert (Hle : Buf.length (trimLeadingZeros value) <= bytes).
  { pose proof (Buf_length_nonneg zeros). lia. }
  unfold decodeCompactFixedHexBlob.
  rewrite assertCompactFixedHexBlobBuffer_accepts
    by (try exact Hle; apply trimLeadingZeros_canonical).
  cbn [mbind result_bind].
  rewrite decodeBufferToHexWithLeadingZeros_padded by exact Hle.
  replace (Z.to_nat (bytes - Buf.length (trimLeadingZeros value)))
    with (length zeros) by (unfold Buf.length in *; lia).
  now rewrite <- (Forall_zero_alloc zeros Hzeros), <- Hsplit.
Qed.

(** C9. The output of [encodeCompactFixedHexBlob] is canonical (empty, or it
    starts with a nonzero byte), it is no longer than the input, it is the
    input without its leading zero bytes, and for an input of at most [bytes]
    bytes [assertCompactFixedHexBlobBuffer] accepts it for the width
    [bytes]. *)
Theorem encodeCompactFixedHexBlob_canonical (buffer : Buffer) :
  (encodeCompactFixedHexBlob buffer = []
   ∨ ∃ b rest, encodeCompactFixedHexBlob buffer = b :: rest ∧ b ≠ x00)
  ∧ (length (encodeCompactFixedHexBlob buffer) ≤ length buffer)%nat
  ∧ (∃ zeros, buffer = zeros ++ encodeCompactFixedHexBlob buffer
              ∧ Forall (λ b, b = x00) zeros)
  ∧ encodeCompactFixedHexBlob buffer = trimLeadingZeros buffer
  ∧ ∀ (context : string) (bytes : Z),
      Buf.length buffer <= bytes →
      assertCompactFixedHexBlobBuffer (encodeCompactFixedHexBlob buffer) context bytes
      = Ok tt.
Proof.
  rewrite encodeCompactFixedHexBlob_trim.
  pose proof (trimLeadingZeros_canonical buffer) as Hc.
  destruct (trimLeadingZeros_split buffer) as (zeros & Hsplit & Hzeros).
  assert (Hlen : (length (trimLeadingZeros buffer) ≤ length buffer)%nat).
  { rewrite Hsplit at 2. rewrite length_app. lia. }
  repeat split.
  - destruct (trimLeadingZeros buffer) as [|b rest]; [now left|].
    right. exists b, rest. split; [reflexivity|].
    unfold canonical in Hc. cbn in Hc. congruence.
  - exact Hlen.
  - exists zeros. split; assumption.
  - intros context bytes Hbytes.
    apply assertCompactFixedHexBlobBuffer_accepts; [|exact Hc].
    unfold Buf.length in *. lia.
Qed.

(** C4, as the code has it.  For a blob of at most [bytes] bytes without a
    leading zero byte, encoding leaves the blob as it is and decoding the
    encoding yields the hex string of the blob padded on the left with zero
    bytes to [bytes] bytes: the blob itself exactly when it is [bytes] long,
    and in every case a value whose encoding is the blob again.  Decoding
    rejects, with an RLP error, every buffer longer than [bytes] and every
    buffer whose first byte is zero. *)
Theorem compactFixedHexBlob_decode_encode (context : string) (bytes : Z) :
  (∀ blob : Buffer,
      Buf.length blob <= bytes → canonical blob →
      encodeCompactFixedHexBlob blob = blob
      ∧ ∃ decoded : string,
          decodeCompactFixedHexBlob (encodeCompactFixedHexBlob blob) context bytes
          = Ok decoded
          ∧ decoded
            = "0x" +:+ Buf.toHex (Buf.alloc (Z.to_nat (bytes - Buf.length blob)) ++ blob)
          ∧ Buf.fromHex (Str.slice 2 decoded)
            = Buf.alloc (Z.to_nat (bytes - Buf.length blob)) ++ blob
          ∧ encodeCompactFixedHexBlob (Buf.fromHex (Str.slice 2 decoded)) = blob
          ∧ (Buf.length blob = bytes → Buf.fromHex (Str.slice 2 decoded) = blob))
  ∧ (∀ buffer : Buffer,
        Buf.length buffer > bytes ∨ head buffer = Some x00 →
        ∃ e, decodeCompactFixedHexBlob buffer context bytes = Throw e
             ∧ isRlpError e = true).
Proof.
  split.
  - intros blob Hlen Hc.
    assert (Henc : encodeCompactFixedHexBlob blob = blob).
    { rewrite encodeCompactFixedHexBlob_trim. now apply trimLeadingZeros_id. }
    split; [exact Henc|]. rewrite Henc.
    eexists. split; [|split; [reflexivity|]].
    + unfold decodeCompactFixedHexBlob.
      rewrite assertCompactFixedHexBlobBuffer_accepts by assumption.
      cbn [mbind result_bind].
      now apply decodeBufferToHexWithLeadingZeros_padded.
    + rewrite slice_0x, fromHex_toHex. split; [reflexivity|]. split.
      * rewrite encodeCompactFixedHexBlob_trim. now apply trimLeadingZeros_padded.
      * intros ->. now rewrite Z.sub_diag.
  - intros buffer Hbad. unfold decodeCompactFixedHexBlob.
    destruct (assertCompactFixedHexBlobBuffer_rejects buffer context bytes Hbad)
      as (e & -> & He).
    exists e. split; [reflexivity|exact He].
Qed.

(** ** Running the blob kind *)

Example encode_0001 :
  encodeCompactFixedHexBlob [x00; x00; x01; x00] = [x01; x00].
Proof. reflexivity. Qed.

Example encode_all_zero : encodeCompactFixedHexBlob [x00; x00; x00] = [].
Proof. reflexivity. Qed.

Example decode_01ab_8 :
  decodeCompactFixedHexBlob [x01; xab] "blockRef" 8 = Ok "0x00000000000001ab"%string.
Proof. reflexivity. Qed.

Example assert_too_long :
  assertCompactFixedHexBlobBuffer [x01; x02; x03] "f" 2
  = Throw (RlpError "f" "expected buffer to be at most 2 bytes").
Proof. reflexivity. Qed.

Example assert_leading_zero :
  assertCompactFixedHexBlobBuffer [x00; x02] "f" 2
  = Throw (RlpError "f" "expected no leading zero bytes").
Proof. reflexivity. Qed.

(** The helper alone, on a buffer longer than the width, fails in
    [String.prototype.repeat]. *)
Example decodeBuffer_too_long :
  decodeBufferToHexWithLeadingZeros [x01; x02; x03] 2 = Throw RangeError.
Proof. reflexivity. Qed.

(** C9 at [00 00 2a 00] and width 4. *)
Lemma encodeCompactFixedHexBlob_canonical_witness :
  encodeCompactFixedHexBlob [x00; x00; x2a; x00] = [x2a; x00]
  ∧ assertCompactFixedHexBlobBuffer
      (encodeCompactFixedHexBlob [x00; x00; x2a; x00]) "blockRef" 4 = Ok tt.
Proof.
  split; [reflexivity|].
  apply (encodeCompactFixedHexBlob_canonical [x00; x00; x2a; x00]).
  vm_compute. discriminate.
Defined.

(** C4 as stated fails at the one-byte blob [01] and width 8: the decoded
    value is the eight-byte hex string, not the blob. *)
Lemma compactFixedHexBlob_roundtrip_counterexample :
  Buf.length [x01] <= 8
  ∧ canonical [x01]
  ∧ decodeCompactFixedHexBlob (encodeCompactFixedHexBlob [x01]) "blockRef" 8
    = Ok "0x0000000000000001"%string
  ∧ "0x0000000000000001"%string ≠ "0x" +:+ Buf.toHex [x01]
  ∧ Buf.fromHex (Str.slice 2 "0x0000000000000001") ≠ [x01].
Proof.
  split; [vm_compute; discriminate|].
  split; [discriminate|].
  split; [reflexivity|].
  split; discriminate.
Qed.

(** The amended C4 at the blob [01 ab] and width 8. *)
Lemma compactFixedHexBlob_decode_encode_witness :
  Buf.length [x01; xab] <= 8
  ∧ canonical [x01; xab]
  ∧ ∃ decoded : string,
      decodeCompactFixedHexBlob (encodeCompactFixedHexBlob [x01; xab]) "blockRef" 8
      = Ok decoded
      ∧ encodeCompactFixedHexBlob (Buf.fromHex (Str.slice 2 decoded)) = [x01; xab].
Proof.
  assert (Hlen : Buf.length [x01; xab] <= 8) by (vm_compute; discriminate).
  assert (Hc : canonical [x01; xab]) by discriminate.
  split; [exact Hlen|]. split; [exact Hc|].
  destruct (proj1 (compactFixedHexBlob_decode_encode "blockRef" 8) _ Hlen Hc)
    as (_ & decoded & Hdec & _ & _ & Hre & _).
  exists decoded. split; assumption.
Defined.

(* ===================================================================== *)
(** ** The transaction class *)
(* ===================================================================== *)

Lemma ToInt32_mod2 (n : Z) : JS.ToInt32 n mod 2 = n mod 2.
Proof.
  unfold JS.ToInt32.
  assert (Hdiv : (n mod 2 ^ 32) mod 2 = n mod 2).
  { apply Z.mod_mod_divide. exists (2 ^ 31). reflexivity. }
  destruct (n mod 2 ^ 32 >=? 2 ^ 31); [|exact Hdiv].
  rewrite <- Hdiv.
  replace (n mod 2 ^ 32 - 2 ^ 32) with (n mod 2 ^ 32 + (- 2 ^ 31) * 2) by lia.
  apply Z_mod_plus_full.
Qed.

Lemma bitand_1 (n : Z) : JS.bitand n 1 = n mod 2.
Proof.
  unfold JS.bitand. change (JS.ToInt32 1) with (Z.ones 1).
  rewrite Z.land_ones by lia. change (2 ^ 1) with 2. apply ToInt32_mod2.
Qed.

Lemma _isDelegated_testbit (body : TransactionBody) :
  _isDelegated body = Z.testbit (featuresOf body) 0.
Proof.
  assert (Hgen : ∀ f, (JS.bitand f 1 =? 1) = Z.testbit f 0).
  { intros f. rewrite bitand_1, Z.bit0_odd, Zmod_odd.
    destruct (Z.odd f); reflexivity. }
  unfold _isDelegated, featuresOf.
  destruct (reserved body) as [r|]; cbn [default]; apply Hgen.
Qed.

(** C3. [isDelegated] is bit 0 of the features, taken as 0 when [reserved]
    or [reserved.features] is absent: false for the features 0, 2, 4, ...,
    true for 1, 3, 5, ..., and it depends on no other bit. *)
Theorem isDelegated_bit0 (this : Transaction) :
  isDelegated this = Z.testbit (featuresOf (body this)) 0
  ∧ (∀ k, featuresOf (body this) = 2 * k → isDelegated this = false)
  ∧ (∀ k, featuresOf (body this) = 2 * k + 1 → isDelegated this = true)
  ∧ (reserved (body this) = None → isDelegated this = false)
  ∧ (∀ r, reserved (body this) = Some r → features r = None →
          isDelegated this = false)
  ∧ (∀ other : Transaction,
        Z.testbit (featuresOf (body other)) 0 = Z.testbit (featuresOf (body this)) 0 →
        isDelegated other = isDelegated this).
Proof.
  unfold isDelegated. rewrite !_isDelegated_testbit. repeat split.
  - intros k ->. apply Z.testbit_even_0.
  - intros k ->. apply Z.testbit_odd_0.
  - unfold featuresOf. now intros ->.
  - unfold featuresOf. now intros r -> ->.
  - intros other Hbit. now rewrite !_isDelegated_testbit.
Qed.

(** ** The loop that trims the features list *)

Lemma Buf_length_eqb_0 (entry : Buffer) : (Buf.length entry =? 0) = true ↔ entry = [].
Proof.
  unfold Buf.length. destruct entry as [|b rest]; [easy|].
  cbn [List.length]. split; [|discriminate].
  intros E. apply Z.eqb_eq in E. lia.
Qed.

Lemma trimTurn_nil : trimTurn [] = None.
Proof. reflexivity. Qed.

Lemma trimTurn_snoc (entries : list Buffer) (entry : Buffer) :
  trimTurn (entries ++ [entry])
  = if Buf.length entry =? 0 then Some entries else None.
Proof.
  unfold trimTurn, JS.pop. rewrite last_snoc, removelast_last, length_app.
  cbn [List.length].
  destruct (Z.ltb_spec 0 (Z.of_nat (length entries + 1))) as [_|?]; [|lia].
  reflexivity.
Qed.

Lemma trimLoop_trimmed (turns : nat) (entries : list Buffer) :
  (length entries ≤ turns)%nat →
  trailingEmptyTrimmed entries (trimLoop turns entries)
  ∧ trimTurn (trimLoop turns entries) = None.
Proof.
  revert entries. induction turns as [|turns IH]; intros entries Hlen.
  - destruct entries; [|cbn in Hlen; lia]. cbn [trimLoop].
    split; [|reflexivity]. split.
    + exists []. split; [reflexivity|constructor].
    + discriminate.
  - destruct entries as [|entry entries _] using rev_ind.
    + cbn. split; [|reflexivity]. split.
      * exists []. split; [reflexivity|constructor].
      * discriminate.
    + cbn [trimLoop]. rewrite trimTurn_snoc.
      destruct (Buf.length entry =? 0) eqn:Hentry.
      * apply Buf_length_eqb_0 in Hentry. subst entry.
        rewrite length_app in Hlen. cbn in Hlen.
        destruct (IH entries ltac:(lia)) as [[(dropped & Hsplit & Hempty) Hlast] Hend].
        split; [|exact Hend]. split; [|exact Hlast].
        exists (dropped ++ [[]]). split.
        -- rewrite Hsplit at 1. now rewrite <- app_assoc.
        -- apply Forall_app. split; [exact Hempty|]. repeat constructor.
      * split; [|now rewrite trimTurn_snoc, Hentry]. split.
        -- exists []. split; [now rewrite app_nil_r|constructor].
        -- intros e. rewrite last_snoc. intros [= <-] ->. discriminate.
Qed.

(** More turns than entries change nothing: the loop has already ended. *)
Lemma trimLoop_terminates (turns : nat) (entries : list Buffer) :
  (length entries ≤ turns)%nat →
  trimLoop turns entries = trimFeaturesList entries
  ∧ trimTurn (trimFeaturesList entries) = None.
Proof.
  unfold trimFeaturesList. intros Hlen.
  split; [|now apply trimLoop_trimmed].
  revert entries Hlen. induction turns as [|turns IH]; intros entries Hlen.
  - destruct entries; [reflexivity|cbn in Hlen; lia].
  - destruct entries as [|entry entries _] using rev_ind; [reflexivity|].
    rewrite length_app in *. cbn [List.length] in *.
    replace (length entries + 1)%nat with (S (length entries)) by lia.
    cbn [trimLoop]. rewrite trimTurn_snoc.
    destruct (Buf.length entry =? 0); [|reflexivity].
    rewrite IH by lia. reflexivity.
Qed.

(** What the specification's words fix is one list. *)
Lemma trailingEmptyTrimmed_unique (entries t1 t2 : list Buffer) :
  trailingEmptyTrimmed entries t1 → trailingEmptyTrimmed entries t2 → t1 = t2.
Proof.
  intros [(d1 & H1 & E1) L1] [(d2 & H2 & E2) L2]. subst entries.
  revert t1 t2 d2 E1 E2 L1 L2 H2.
  assert (Hgen : ∀ (d : list Buffer) t1 t2 d2,
             Forall (λ e, e = []) d → (∀ e, last t2 = Some e → e ≠ []) →
             t1 ++ d = t2 ++ d2 → ∃ k, t1 = t2 ++ k).
  { clear. intros d.
    induction d as [|x d IHd] using rev_ind; intros t1 t2 d2 E1 L2 Heq.
    - rewrite app_nil_r in Heq. eauto.
    - apply Forall_app in E1 as [E1 Ex]. inversion Ex as [|? ? Hx _]; subst.
      revert Heq. destruct d2 as [|y d2 _] using rev_ind; intros Heq.
      + rewrite app_nil_r in Heq. subst t2. exfalso.
        apply (L2 []); [|reflexivity].
        rewrite app_assoc. apply last_snoc.
      + rewrite !app_assoc in Heq. apply app_inj_tail in Heq as [Heq _].
        eapply IHd; eauto. }
  intros t1 t2 d2 E1 E2 L1 L2 Heq.
  destruct (Hgen d1 t1 t2 d2 E1 L2 Heq) as [k1 Hk1].
  destruct (Hgen d2 t2 t1 d1 E2 L1 (eq_sym Heq)) as [k2 Hk2].
  rewrite Hk2 in Hk1 at 1. rewrite <- app_assoc in Hk1.
  rewrite <- (app_nil_r t1) in Hk1 at 1. apply app_inv_head in Hk1.
  symmetry in Hk1. apply app_eq_nil in Hk1 as [-> _].
  now rewrite app_nil_r in Hk2.
Qed.

Lemma subarray_first_65 (sig : Buffer) : Buf.subarray sig 0 65 = take 65 sig.
Proof.
  unfold Buf.subarray, Buf.relativeIndex, Buf.length. cbn [Z.ltb Z.compare].
  rewrite (Z.min_l 0) by lia. change (Z.to_nat 0) with 0%nat.
  rewrite drop_0, Z.sub_0_r.
  destruct (Z.le_ge_cases 65 (Z.of_nat (length sig))) as [Hlong|Hshort].
  - rewrite Z.min_l by lia. reflexivity.
  - rewrite Z.min_r by lia. rewrite Nat2Z.id.
    rewrite !take_ge by lia. reflexivity.
Qed.

Lemma subarray_from_65 (sig : Buffer) :
  Buf.subarray sig 65 (Buf.length sig) = drop 65 sig.
Proof.
  unfold Buf.subarray, Buf.relativeIndex, Buf.length. cbn [Z.ltb Z.compare].
  destruct (Z.ltb_spec (Z.of_nat (length sig)) 0) as [?|_]; [lia|].
  rewrite Z.min_id.
  destruct (Z.le_ge_cases 65 (Z.of_nat (length sig))) as [Hlong|Hshort].
  - rewrite Z.min_l by lia. change (Z.to_nat 65) with 65%nat.
    apply take_ge. rewrite length_drop. lia.
  - rewrite Z.min_r by lia. rewrite Z.sub_diag, Nat2Z.id. cbn [Z.to_nat take].
    symmetry. apply drop_ge. lia.
Qed.

Section TransactionProperties.

Context `{env : Imports}.

Lemma _encodeReservedField_unfold (this : Transaction) :
  _encodeReservedField this
  = (encodedFeatures ← kind_encode TRANSACTION_FEATURES_KIND
                         (featuresOf (body this)) (name TRANSACTION_FEATURES_KIND);
     Ok (trimFeaturesList (encodedFeatures :: unusedOf (body this)))).
Proof.
  unfold _encodeReservedField, featuresOf, unusedOf.
  destruct (reserved (body this)); reflexivity.
Qed.

(** C5. The encoded reserved field is the list of the encoded features
    followed by the unused entries, without its last run of empty blobs:
    nothing else is removed, a list of empty blobs only gives the empty list,
    and a last entry that is not empty keeps the whole list, empty entries
    before it included.  With features 0 encoded as the empty blob, a body
    with features 0 and no unused entries, or without [reserved], gives the
    empty list. *)
Theorem _encodeReservedField_trimmed (this : Transaction) :
  (∀ encodedFeatures : Buffer,
      kind_encode TRANSACTION_FEATURES_KIND
        (featuresOf (body this)) (name TRANSACTION_FEATURES_KIND) = Ok encodedFeatures →
      ∃ trimmed : list Buffer,
        _encodeReservedField this = Ok trimmed
        ∧ trailingEmptyTrimmed (encodedFeatures :: unusedOf (body this)) trimmed
        ∧ (encodedFeatures = [] → Forall (λ e, e = []) (unusedOf (body this)) →
           trimmed = [])
        ∧ (∀ e, last (encodedFeatures :: unusedOf (body this)) = Some e → e ≠ [] →
                trimmed = encodedFeatures :: unusedOf (body this)))
  ∧ (∀ e : Error,
        kind_encode TRANSACTION_FEATURES_KIND
          (featuresOf (body this)) (name TRANSACTION_FEATURES_KIND) = Throw e →
        _encodeReservedField this = Throw e)
  ∧ (kind_encode TRANSACTION_FEATURES_KIND 0 (name TRANSACTION_FEATURES_KIND) = Ok [] →
     (reserved (body this) = None
      ∨ (featuresOf (body this) = 0 ∧ unusedOf (body this) = [])) →
     _encodeReservedField this = Ok []).
Proof.
  rewrite _encodeReservedField_unfold.
  assert (Hgen : ∀ encodedFeatures : Buffer,
    let entries := encodedFeatures :: unusedOf (body this) in
    trailingEmptyTrimmed entries (trimFeaturesList entries)
    ∧ (Forall (λ e, e = []) entries → trimFeaturesList entries = [])
    ∧ (∀ e, last entries = Some e → e ≠ [] → trimFeaturesList entries = entries)).
  { intros encodedFeatures entries.
    assert (Ht : trailingEmptyTrimmed entries (trimFeaturesList entries))
      by now apply trimLoop_trimmed.
    split; [exact Ht|]. split.
    - intros Hempty. apply (trailingEmptyTrimmed_unique entries); [exact Ht|].
      split; [|discriminate]. exists entries. split; [reflexivity|exact Hempty].
    - intros e Hlast He. apply (trailingEmptyTrimmed_unique entries); [exact Ht|].
      split.
      + exists []. split; [now rewrite app_nil_r|constructor].
      + intros e'. rewrite Hlast. now intros [= <-]. }
  split; [|split].
  - intros encodedFeatures ->. cbn [mbind result_bind].
    destruct (Hgen encodedFeatures) as (Ht & Hempty & Hlast).
    eexists. split; [reflexivity|]. split; [exact Ht|]. split; [|exact Hlast].
    intros -> Hunused. apply Hempty. now constructor.
  - now intros e ->.
  - intros Hzero Hdefault.
    assert (Hf : featuresOf (body this) = 0 ∧ unusedOf (body this) = []).
    { destruct Hdefault as [Hnone|Hboth]; [|exact Hboth].
      unfold featuresOf, unusedOf. now rewrite Hnone. }
    destruct Hf as [-> ->]. rewrite Hzero. reflexivity.
Qed.

(** C1. With a [delegateFor] that is not a well-formed address,
    [getSignatureHash] fails with the invalid-address error, before anything
    is encoded; with a well-formed one it is the hash of the hash without
    argument followed by the raw bytes of the address, and the hash without
    argument is the hash of the unsigned encoding. *)
Theorem getSignatureHash_delegateFor (this : Transaction) (delegateFor : string) :
  getSignatureHash this None
  = (unsignedEncoding ← _encode this false; Ok (blake2b256 unsignedEncoding))
  ∧ (address_isAddress delegateFor = false →
     getSignatureHash this (Some delegateFor) = Throw INVALID_ADDRESS)
  ∧ (address_isAddress delegateFor = true →
     getSignatureHash this (Some delegateFor)
     = (hash ← getSignatureHash this None;
        Ok (blake2b256 (hash ++ Buf.fromHex (Str.slice 2 delegateFor)))))
  ∧ (address_isAddress delegateFor = true →
     ∀ unsignedEncoding, _encode this false = Ok unsignedEncoding →
       getSignatureHash this (Some delegateFor)
       = Ok (blake2b256 (blake2b256 unsignedEncoding
                         ++ Buf.fromHex (Str.slice 2 delegateFor)))).
Proof.
  unfold getSignatureHash. split; [|split; [|split]].
  - destruct (_encode this false); reflexivity.
  - now intros ->.
  - intros ->. cbn [negb]. destruct (_encode this false); reflexivity.
  - intros -> unsignedEncoding ->. reflexivity.
Qed.

(** C2. For a body that passes the body check, the constructor with a
    signature succeeds exactly when the signature is 65 bytes long for a body
    that is not delegated and 130 bytes long for a delegated one; with any
    other length it fails with the invalid-signature error. *)
Theorem new_Transaction_signature_length
    (body : TransactionBody) (sig : Buffer)
    (Hbody : _isValidBody body = true) :
  ((∃ tx, new_Transaction body (Some sig) = Ok tx)
   ↔ Buf.length sig = if _isDelegated body then 130 else 65)
  ∧ (Buf.length sig = (if _isDelegated body then 130 else 65) →
     new_Transaction body (Some sig) = Ok {| body := body; signature := Some sig |})
  ∧ (Buf.length sig ≠ (if _isDelegated body then 130 else 65) →
     new_Transaction body (Some sig) = Throw INVALID_SIGNATURE).
Proof.
  unfold new_Transaction, _isSignatureValid, SIGNATURE_LENGTH. rewrite Hbody.
  change (65 * 2) with 130.
  destruct (Z.eqb_spec (Buf.length sig) (if _isDelegated body then 130 else 65))
    as [Heq|Hne].
  - split; [|split].
    + split; [intros _; exact Heq|eauto].
    + reflexivity.
    + intros Hne. contradiction.
  - split; [|split].
    + split; [intros [tx Htx]; discriminate|intros Heq; contradiction].
    + intros Heq. contradiction.
    + reflexivity.
Qed.

(** ** The body check of the constructor *)

Lemma isDefined_true {A} (o : option A) : JS.isDefined o = true ↔ o ≠ None.
Proof. destruct o; cbn; split; congruence. Qed.

Lemma _isValidBody_complete (body : TransactionBody) :
  _isValidBody body = true ↔ bodyComplete body.
Proof.
  unfold _isValidBody, bodyComplete.
  rewrite !andb_true_iff, !isDefined_true.
  assert (Htag :
    match chainTag body with
    | Some tag => (tag >=? 0) && (tag <=? 255)
    | None => false
    end = true
    ↔ ∃ tag, chainTag body = Some tag ∧ 0 <= tag <= 255).
  { destruct (chainTag body) as [tag|].
    - rewrite andb_true_iff, Z.geb_le, Z.leb_le. split.
      + intros Hrange. exists tag. split; [reflexivity|lia].
      + intros (tag' & [= <-] & Hrange). lia.
    - split; [discriminate|]. intros (tag' & Hnone & _). discriminate. }
  assert (Href :
    match blockRef body with
    | Some ref =>
        dataUtils_isHexString ref
        && (Buf.length (Buf.fromHex (Str.slice 2 ref)) =? BLOCKREF_LENGTH)
    | None => false
    end = true
    ↔ ∃ ref, blockRef body = Some ref
             ∧ dataUtils_isHexString ref = true
             ∧ length (Buf.fromHex (Str.slice 2 ref)) = 8%nat).
  { unfold Buf.length, BLOCKREF_LENGTH. destruct (blockRef body) as [ref|].
    - rewrite andb_true_iff, Z.eqb_eq. split.
      + intros [Hhex Hlen]. exists ref. repeat split; [exact Hhex|lia].
      + intros (ref' & [= <-] & Hhex & Hlen). split; [exact Hhex|lia].
    - split; [discriminate|]. intros (ref' & Hnone & _). discriminate. }
  rewrite Htag, Href. tauto.
Qed.

Lemma bodyComplete_dependsOn (body : TransactionBody) :
  bodyComplete body ↔ otherFieldsComplete body ∧ dependsOn body ≠ None.
Proof. unfold bodyComplete, otherFieldsComplete. tauto. Qed.

Lemma otherFieldsComplete_withDependsOn (body : TransactionBody) d :
  otherFieldsComplete (withDependsOn body d) ↔ otherFieldsComplete body.
Proof. reflexivity. Qed.

(** C6. The constructor fails with the invalid-body error exactly when the
    body is not complete: chain tag present and in 0..255; block reference
    present, a hex string, eight bytes once decoded; expiration, clauses, gas
    price coefficient, gas, dependsOn and nonce present.  Without a signature
    it succeeds exactly when the body is complete: nothing else of the body
    is checked. *)
Theorem new_Transaction_body_check
    (body : TransactionBody) (sig : option Buffer) :
  (_isValidBody body = true ↔ bodyComplete body)
  ∧ (new_Transaction body sig = Throw INVALID_TRANSACTION_BODY ↔ ¬ bodyComplete body)
  ∧ (new_Transaction body None = Ok {| body := body; signature := None |}
     ↔ bodyComplete body)
  ∧ ((∃ tx, new_Transaction body None = Ok tx) ↔ bodyComplete body).
Proof.
  pose proof (_isValidBody_complete body) as Hiff.
  split; [exact Hiff|]. unfold new_Transaction.
  destruct (_isValidBody body) eqn:Hvalid.
  - assert (Hc : bodyComplete body) by now apply Hiff.
    split; [|split].
    + split; [|contradiction].
      destruct sig as [s|]; [destruct (_isSignatureValid body s)|]; discriminate.
    + split; [intros _; exact Hc|reflexivity].
    + split; [intros _; exact Hc|eauto].
  - assert (Hc : ¬ bodyComplete body).
    { intros Hc. apply Hiff in Hc. discriminate. }
    split; [|split].
    + split; [intros _; exact Hc|reflexivity].
    + split; [discriminate|contradiction].
    + split; [intros [tx Htx]; discriminate|contradiction].
Qed.

(** C10. Presence is "not undefined": when the other fields pass, the
    constructor accepts [dependsOn] set to null and any string as a non-null
    [dependsOn], and fails with the invalid-body error when [dependsOn] is
    undefined. *)
Theorem dependsOn_presence
    (body : TransactionBody) (Hother : otherFieldsComplete body) :
  (∀ d : option string,
      new_Transaction (withDependsOn body (Some d)) None
      = Ok {| body := withDependsOn body (Some d); signature := None |})
  ∧ (∀ (d : option string) (sig : option Buffer),
        new_Transaction (withDependsOn body (Some d)) sig
        ≠ Throw INVALID_TRANSACTION_BODY)
  ∧ (∀ sig : option Buffer,
        new_Transaction (withDependsOn body None) sig
        = Throw INVALID_TRANSACTION_BODY).
Proof.
  assert (Hsome : ∀ d, _isValidBody (withDependsOn body (Some d)) = true).
  { intros d. apply _isValidBody_complete, bodyComplete_dependsOn.
    split; [exact Hother|discriminate]. }
  assert (Hnone : _isValidBody (withDependsOn body None) = false).
  { destruct (_isValidBody (withDependsOn body None)) eqn:Hvalid; [|reflexivity].
    apply _isValidBody_complete, bodyComplete_dependsOn in Hvalid as [_ Hd].
    now contradiction Hd. }
  unfold new_Transaction. split; [|split].
  - intros d. now rewrite Hsome.
  - intros d sig. rewrite Hsome.
    destruct sig as [s|]; [|discriminate].
    destruct (_isSignatureValid (withDependsOn body (Some d)) s); discriminate.
  - intros sig. now rewrite Hnone.
Qed.

(** ** The getters of an unsigned and of a signed transaction *)

(** C7, as the code has it.  On a transaction without signature, [origin]
    and [id] fail with the not-signed error; [delegator] fails with the
    not-signed error when the body is delegated, and with the not-delegated
    error when it is not. *)
Theorem unsigned_access (this : Transaction) (Hunsigned : signature this = None) :
  origin this = Throw NOT_SIGNED
  ∧ id this = Throw NOT_SIGNED
  ∧ delegator this
    = (if isDelegated this then Throw NOT_SIGNED else Throw NOT_DELEGATED).
Proof.
  unfold origin, id, delegator, isSigned. rewrite Hunsigned. cbn.
  destruct (isDelegated this); repeat split.
Qed.

(** C8. On a signed transaction, [origin] is the address of the public key
    recovered from the first 65 bytes of the signature against the signing
    hash, and [id] is the hash of the signing hash followed by the raw bytes
    of [origin]; on an unsigned one [id] fails with the not-signed error. *)
Theorem id_of_signed (this : Transaction) :
  (∀ sig : Buffer, signature this = Some sig →
      origin this
      = (hash ← getSignatureHash this None;
         publicKey ← secp256k1_recover hash (take 65 sig);
         Ok (address_fromPublicKey publicKey))
      ∧ id this
        = (hash ← getSignatureHash this None;
           originAddress ← origin this;
           Ok (blake2b256_hex (hash ++ Buf.fromHex (Str.slice 2 originAddress))))
      ∧ ∀ hash publicKey,
          getSignatureHash this None = Ok hash →
          secp256k1_recover hash (take 65 sig) = Ok publicKey →
          origin this = Ok (address_fromPublicKey publicKey)
          ∧ id this
            = Ok (blake2b256_hex
                    (hash ++ Buf.fromHex (Str.slice 2 (address_fromPublicKey publicKey)))))
  ∧ (signature this = None → id this = Throw NOT_SIGNED).
Proof.
  split.
  - intros sig Hsig.
    assert (Horigin :
      origin this
      = (hash ← getSignatureHash this None;
         publicKey ← secp256k1_recover hash (take 65 sig);
         Ok (address_fromPublicKey publicKey))).
    { unfold origin. rewrite Hsig, subarray_first_65. reflexivity. }
    assert (Hid :
      id this
      = (hash ← getSignatureHash this None;
         originAddress ← origin this;
         Ok (blake2b256_hex (hash ++ Buf.fromHex (Str.slice 2 originAddress))))).
    { unfold id, isSigned. rewrite Hsig. reflexivity. }
    split; [exact Horigin|]. split; [exact Hid|].
    intros hash publicKey Hhash Hrecover.
    assert (Ho : origin this = Ok (address_fromPublicKey publicKey)).
    { rewrite Horigin, Hhash. cbn [mbind result_bind]. now rewrite Hrecover. }
    split; [exact Ho|]. rewrite Hid, Hhash. cbn [mbind result_bind].
    now rewrite Ho.
  - intros Hnone. unfold id, isSigned. now rewrite Hnone.
Qed.

End TransactionProperties.

(* ===================================================================== *)
(** ** More on the compact fixed-width blob helpers *)
(* ===================================================================== *)

Lemma trimLeadingZeros_nil_iff (buffer : Buffer) :
  trimLeadingZeros buffer = [] ↔ Forall (λ b, b = x00) buffer.
Proof.
  induction buffer as [|b rest IH]; [split; [constructor|reflexivity]|].
  cbn [trimLeadingZeros]. destruct (isZeroByte b) eqn:Hb.
  - apply isZeroByte_true in Hb. rewrite IH. split.
    + intros Hrest. now constructor.
    + intros Hall. now inversion Hall.
  - apply isZeroByte_false in Hb. split; [discriminate|].
    intros Hall. inversion Hall. contradiction.
Qed.

Lemma assertCompactFixedHexBlobBuffer_Ok_iff
    (buffer : Buffer) (context : string) (bytes : Z) :
  assertCompactFixedHexBlobBuffer buffer context bytes = Ok tt
  ↔ Buf.length buffer <= bytes ∧ canonical buffer.
Proof.
  split; [|intros [Hlen Hc]; now apply assertCompactFixedHexBlobBuffer_accepts].
  intros Hok.
  destruct (Z.le_gt_cases (Buf.length buffer) bytes) as [Hle|Hgt].
  - split; [exact Hle|]. unfold canonical. intros Hzero.
    destruct (assertCompactFixedHexBlobBuffer_rejects buffer context bytes
                (or_intror Hzero)) as (e & He & _).
    congruence.
  - destruct (assertCompactFixedHexBlobBuffer_rejects buffer context bytes)
      as (e & He & _); [left; lia|congruence].
Qed.

Lemma toHex_length (buffer : Buffer) :
  String.length (Buf.toHex buffer) = (2 * length buffer)%nat.
Proof.
  induction buffer as [|b rest IH]; [reflexivity|].
  cbn [Buf.toHex String.length List.length]. rewrite IH. lia.
Qed.

Lemma length_0x (s : string) :
  String.length ("0x" +:+ s) = S (S (String.length s)).
Proof. reflexivity. Qed.

(** X1. Encoding twice is encoding once; the buffers the encoding leaves
    alone are the canonical ones; the encoding is empty exactly for the
    buffers of zero bytes only (the empty buffer among them). *)
Theorem encodeCompactFixedHexBlob_idempotent (buffer : Buffer) :
  encodeCompactFixedHexBlob (encodeCompactFixedHexBlob buffer)
  = encodeCompactFixedHexBlob buffer
  ∧ (encodeCompactFixedHexBlob buffer = buffer ↔ canonical buffer)
  ∧ (encodeCompactFixedHexBlob buffer = [] ↔ Forall (λ b, b = x00) buffer).
Proof.
  rewrite !encodeCompactFixedHexBlob_trim. split; [|split].
  - apply trimLeadingZeros_id, trimLeadingZeros_canonical.
  - split; [|apply trimLeadingZeros_id].
    intros Hfix. rewrite <- Hfix. apply trimLeadingZeros_canonical.
  - apply trimLeadingZeros_nil_iff.
Qed.

(** X2. [assertCompactFixedHexBlobBuffer] returns exactly for the canonical
    buffers of at most [bytes] bytes.  A buffer that is too long gets the
    length error, with the width in the message, whether or not it starts
    with a zero byte; a buffer within the width that starts with a zero byte
    gets the leading-zero error. *)
Theorem assertCompactFixedHexBlobBuffer_cases
    (buffer : Buffer) (context : string) (bytes : Z) :
  (assertCompactFixedHexBlobBuffer buffer context bytes = Ok tt
   ↔ Buf.length buffer <= bytes ∧ canonical buffer)
  ∧ (Buf.length buffer > bytes →
     assertCompactFixedHexBlobBuffer buffer context bytes
     = Throw (RlpError context
                ("expected buffer to be at most " +:+ Str.ofNumber bytes +:+ " bytes")))
  ∧ (Buf.length buffer <= bytes → head buffer = Some x00 →
     assertCompactFixedHexBlobBuffer buffer context bytes
     = Throw (RlpError context "expected no leading zero bytes")).
Proof.
  split; [apply assertCompactFixedHexBlobBuffer_Ok_iff|].
  unfold assertCompactFixedHexBlobBuffer. split.
  - intros Hgt. destruct (Z.gtb_spec (Buf.length buffer) bytes) as [_|?]; [|lia].
    reflexivity.
  - intros Hle Hzero.
    destruct (Z.gtb_spec (Buf.length buffer) bytes) as [?|_]; [lia|].
    destruct buffer as [|b rest]; [discriminate|].
    cbn in Hzero. injection Hzero as ->. rewrite Buf_length_cons.
    destruct (Z.eqb_spec (Buf.length rest + 1) 0) as [E|_]; [|reflexivity].
    pose proof (Buf_length_nonneg rest). lia.
Qed.

(** X3. [decodeBufferToHexWithLeadingZeros] returns exactly when the buffer
    is at most [bytes] bytes long, and fails in [repeat] otherwise.  What it
    returns is "0x" followed by the hex digits of a buffer of exactly [bytes]
    bytes that ends with the given one, so the string is [2 + 2 * bytes]
    characters long. *)
Theorem decodeBufferToHexWithLeadingZeros_width (buffer : Buffer) (bytes : Z) :
  (Buf.length buffer > bytes →
   decodeBufferToHexWithLeadingZeros buffer bytes = Throw RangeError)
  ∧ (Buf.length buffer <= bytes →
     ∃ padded : Buffer,
       decodeBufferToHexWithLeadingZeros buffer bytes
       = Ok ("0x" +:+ Buf.toHex padded)
       ∧ Buf.length padded = bytes
       ∧ (∃ zeros, padded = zeros ++ buffer ∧ Forall (λ b, b = x00) zeros)
       ∧ Z.of_nat (String.length ("0x" +:+ Buf.toHex padded)) = 2 + 2 * bytes).
Proof.
  split.
  - intros Hgt. unfold decodeBufferToHexWithLeadingZeros, Str.repeat.
    destruct (Z.ltb_spec ((bytes - Buf.length buffer) * 2) 0) as [_|?]; [|lia].
    reflexivity.
  - intros Hle.
    exists (Buf.alloc (Z.to_nat (bytes - Buf.length buffer)) ++ buffer).
    assert (Hlen : Buf.length (Buf.alloc (Z.to_nat (bytes - Buf.length buffer))
                               ++ buffer) = bytes).
    { rewrite Buf_length_app. unfold Buf.length at 1, Buf.alloc.
      rewrite length_replicate. lia. }
    split; [now apply decodeBufferToHexWithLeadingZeros_padded|].
    split; [exact Hlen|]. split.
    + eexists. split; [reflexivity|]. apply Forall_replicate. reflexivity.
    + rewrite length_0x, toHex_length. unfold Buf.length in *. lia.
Qed.

Lemma decodeBufferToHexWithLeadingZeros_trim (value : Buffer) (bytes : Z) :
  Buf.length value <= bytes →
  decodeBufferToHexWithLeadingZeros (trimLeadingZeros value) bytes
  = decodeBufferToHexWithLeadingZeros value bytes.
Proof.
  intros Hlen.
  destruct (trimLeadingZeros_split value) as (zeros & Hsplit & Hzeros).
  assert (Hsum : Buf.length value
                 = Buf.length zeros + Buf.length (trimLeadingZeros value)).
  { rewrite <- Buf_length_app. now rewrite <- Hsplit. }
  pose proof (Buf_length_nonneg zeros) as Hz.
  rewrite !decodeBufferToHexWithLeadingZeros_padded by lia.
  do 2 f_equal.
  replace (Z.to_nat (bytes - Buf.length (trimLeadingZeros value)))
    with (Z.to_nat (bytes - Buf.length value) + length zeros)%nat
    by (unfold Buf.length in *; lia).
  unfold Buf.alloc. rewrite replicate_add, <- app_assoc.
  change (replicate (length zeros) x00) with (Buf.alloc (length zeros)).
  rewrite <- (Forall_zero_alloc zeros Hzeros). now rewrite <- Hsplit.
Qed.

(** X4. Trimming does not change what a value decodes to: for a value of at
    most [bytes] bytes, leading zero bytes allowed, the encoding passes the
    assertion and decodes to the same string as the value itself; for a value
    of exactly [bytes] bytes that string is "0x" and the value's own hex
    digits, so encoding and decoding restore it. *)
Theorem encodeCompactFixedHexBlob_preserves_value
    (value : Buffer) (context : string) (bytes : Z)
    (Hlen : Buf.length value <= bytes) :
  assertCompactFixedHexBlobBuffer (encodeCompactFixedHexBlob value) context bytes
  = Ok tt
  ∧ decodeBufferToHexWithLeadingZeros (encodeCompactFixedHexBlob value) bytes
    = decodeBufferToHexWithLeadingZeros value bytes
  ∧ (Buf.length value = bytes →
     decodeBufferToHexWithLeadingZeros (encodeCompactFixedHexBlob value) bytes
     = Ok ("0x" +:+ Buf.toHex value)).
Proof.
  rewrite encodeCompactFixedHexBlob_trim.
  assert (Hsame : decodeBufferToHexWithLeadingZeros (trimLeadingZeros value) bytes
                  = decodeBufferToHexWithLeadingZeros value bytes)
    by now apply decodeBufferToHexWithLeadingZeros_trim.
  split; [|split].
  - apply assertCompactFixedHexBlobBuffer_accepts;
      [|apply trimLeadingZeros_canonical].
    destruct (trimLeadingZeros_split value) as (zeros & Hsplit & _).
    apply (f_equal Buf.length) in Hsplit. rewrite Buf_length_app in Hsplit.
    pose proof (Buf_length_nonneg zeros). lia.
  - exact Hsame.
  - intros Hfull. rewrite Hsame.
    rewrite decodeBufferToHexWithLeadingZeros_padded by exact Hlen.
    now rewrite Hfull, Z.sub_diag.
Qed.

(** X5. Two buffers that pass the assertion for the same width and decode to
    the same string are the same buffer: among canonical buffers a value has
    one encoding. *)
Theorem decodeBufferToHexWithLeadingZeros_injective
    (b1 b2 : Buffer) (context : string) (bytes : Z)
    (H1 : assertCompactFixedHexBlobBuffer b1 context bytes = Ok tt)
    (H2 : assertCompactFixedHexBlobBuffer b2 context bytes = Ok tt)
    (Hsame : decodeBufferToHexWithLeadingZeros b1 bytes
             = decodeBufferToHexWithLeadingZeros b2 bytes) :
  b1 = b2.
Proof.
  apply assertCompactFixedHexBlobBuffer_Ok_iff in H1 as [Hlen1 Hc1].
  apply assertCompactFixedHexBlobBuffer_Ok_iff in H2 as [Hlen2 Hc2].
  rewrite !decodeBufferToHexWithLeadingZeros_padded in Hsame by assumption.
  assert (Hhex :
    Buf.fromHex (Str.slice 2
      ("0x" +:+ Buf.toHex (Buf.alloc (Z.to_nat (bytes - Buf.length b1)) ++ b1)))
    = Buf.fromHex (Str.slice 2
      ("0x" +:+ Buf.toHex (Buf.alloc (Z.to_nat (bytes - Buf.length b2)) ++ b2))))
    by congruence.
  rewrite !slice_0x, !fromHex_toHex in Hhex.
  apply (f_equal trimLeadingZeros) in Hhex.
  now rewrite !trimLeadingZeros_padded in Hhex by assumption.
Qed.

(* ===================================================================== *)
(** ** More on the transaction class: how its operations compose *)
(* ===================================================================== *)

Lemma trimFeaturesList_trimmed (entries : list Buffer) :
  trailingEmptyTrimmed entries (trimFeaturesList entries).
Proof. now apply trimLoop_trimmed. Qed.

Lemma trimFeaturesList_app_empty (entries : list Buffer) (n : nat) :
  trimFeaturesList (entries ++ replicate n []) = trimFeaturesList entries.
Proof.
  destruct (trimFeaturesList_trimmed entries) as [(dropped & Hsplit & Hempty) Hlast].
  apply (trailingEmptyTrimmed_unique (entries ++ replicate n []));
    [apply trimFeaturesList_trimmed|].
  split; [|exact Hlast].
  exists (dropped ++ replicate n []). split.
  - rewrite Hsplit at 1. now rewrite <- app_assoc.
  - apply Forall_app. split; [exact Hempty|].
    apply Forall_replicate. reflexivity.
Qed.

(** X6. The trimming loop ignores empty blobs at the end of its input: a
    list and the same list followed by any number of empty blobs trim to the
    same list.  Trimming twice is trimming once, and the result is never
    longer than the input. *)
Theorem trimFeaturesList_trailing_empty (entries : list Buffer) (n : nat) :
  trimFeaturesList (entries ++ replicate n []) = trimFeaturesList entries
  ∧ trimFeaturesList (trimFeaturesList entries) = trimFeaturesList entries
  ∧ (length (trimFeaturesList entries) ≤ length entries)%nat.
Proof.
  destruct (trimFeaturesList_trimmed entries) as [(dropped & Hsplit & Hempty) Hlast].
  split; [apply trimFeaturesList_app_empty|]. split.
  - apply (trailingEmptyTrimmed_unique (trimFeaturesList entries));
      [apply trimFeaturesList_trimmed|].
    split; [|exact Hlast].
    exists []. split; [now rewrite app_nil_r|constructor].
  - rewrite Hsplit at 2. rewrite length_app. lia.
Qed.

(** X7. A constructor call with a signature that returns a transaction
    returns the given body and signature, the body passes the body check,
    and the two slices the getters take cover the signature: the first is 65
    bytes long; on a delegated body the second is 65 bytes long too, on a
    body that is not delegated it is empty. *)
Theorem new_Transaction_signed_slices `{env : Imports}
    (b : TransactionBody) (sig : Buffer) (tx : Transaction)
    (Hnew : new_Transaction b (Some sig) = Ok tx) :
  body tx = b
  ∧ signature tx = Some sig
  ∧ _isValidBody b = true
  ∧ sig = Buf.subarray sig 0 65 ++ Buf.subarray sig 65 (Buf.length sig)
  ∧ length (Buf.subarray sig 0 65) = 65%nat
  ∧ (isDelegated tx = true →
     length (Buf.subarray sig 65 (Buf.length sig)) = 65%nat)
  ∧ (isDelegated tx = false →
     Buf.subarray sig 65 (Buf.length sig) = [] ∧ Buf.subarray sig 0 65 = sig).
Proof.
  unfold new_Transaction in Hnew.
  destruct (_isValidBody b) eqn:Hvalid; [|discriminate].
  destruct (_isSignatureValid b sig) eqn:Hsig; [|discriminate].
  injection Hnew as <-. unfold isDelegated. cbn [body signature].
  unfold _isSignatureValid, SIGNATURE_LENGTH, Buf.length in Hsig.
  apply Z.eqb_eq in Hsig.
  rewrite subarray_first_65, subarray_from_65.
  split; [reflexivity|]. split; [reflexivity|]. split; [reflexivity|].
  split; [now rewrite take_drop|].
  destruct (_isDelegated b).
  - split; [rewrite length_take; lia|].
    split; [intros _; rewrite length_drop; lia|discriminate].
  - split; [rewrite length_take; lia|].
    split; [discriminate|]. intros _.
    split; [apply drop_ge; lia|apply take_ge; lia].
Qed.

Section TransactionComposition.

Context `{env : Imports}.

Lemma getSignatureHash_None_unfold (this : Transaction) :
  getSignatureHash this None
  = (unsignedEncoding ← _encode this false; Ok (blake2b256 unsignedEncoding)).
Proof.
  unfold getSignatureHash. destruct (_encode this false); reflexivity.
Qed.

Lemma getSignatureHash_Some_unfold (this : Transaction) (addr : string) :
  getSignatureHash this (Some addr)
  = if address_isAddress addr
    then (hash ← getSignatureHash this None;
          Ok (blake2b256 (hash ++ Buf.fromHex (Str.slice 2 addr))))
    else Throw INVALID_ADDRESS.
Proof.
  unfold getSignatureHash. destruct (address_isAddress addr); [|reflexivity].
  cbn [negb]. destruct (_encode this false); reflexivity.
Qed.

Lemma origin_unfold (this : Transaction) (sig : Buffer) :
  signature this = Some sig →
  origin this
  = (hash ← getSignatureHash this None;
     publicKey ← secp256k1_recover hash (take 65 sig);
     Ok (address_fromPublicKey publicKey)).
Proof.
  intros Hsig. unfold origin. now rewrite Hsig, subarray_first_65.
Qed.

Lemma id_unfold (this : Transaction) (sig : Buffer) :
  signature this = Some sig →
  id this
  = (hash ← getSignatureHash this None;
     originAddress ← origin this;
     Ok (blake2b256_hex (hash ++ Buf.fromHex (Str.slice 2 originAddress)))).
Proof.
  intros Hsig. unfold id, isSigned. now rewrite Hsig.
Qed.

Lemma delegator_unfold (this : Transaction) (sig : Buffer) :
  signature this = Some sig → isDelegated this = true →
  delegator this
  = (originAddress ← origin this;
     hash ← getSignatureHash this (Some originAddress);
     delegatorPublicKey ← secp256k1_recover hash (drop 65 sig);
     Ok (address_fromPublicKey delegatorPublicKey)).
Proof.
  intros Hsig Hdelegated. unfold delegator.
  now rewrite Hdelegated, Hsig, subarray_from_65.
Qed.

Lemma _encode_unsigned_of_body (this : Transaction) :
  _encode this false = _encode {| body := body this; signature := None |} false.
Proof. reflexivity. Qed.

(** X8. The signing hash does not depend on the signature: with or without
    [delegateFor], a transaction has the signing hash of the unsigned
    transaction with the same body, and without [delegateFor] that is the
    hash of the [encoded] bytes of that unsigned transaction. *)
Theorem getSignatureHash_ignores_signature
    (this : Transaction) (delegateFor : option string) :
  getSignatureHash this delegateFor
  = getSignatureHash {| body := body this; signature := None |} delegateFor
  ∧ getSignatureHash this None
    = (unsignedEncoding ← encoded {| body := body this; signature := None |};
       Ok (blake2b256 unsignedEncoding)).
Proof.
  split.
  - unfold getSignatureHash. now rewrite _encode_unsigned_of_body.
  - rewrite getSignatureHash_None_unfold, _encode_unsigned_of_body.
    reflexivity.
Qed.

(** X9. [delegator] on a signed transaction.  On a body that is not
    delegated it fails with the not-delegated error.  On a delegated body it
    is the address of the key recovered from the signature bytes after the
    first 65, against the signing hash for the origin's address; if the
    address derived for the origin is not a well-formed address, it fails
    with the invalid-address error. *)
Theorem delegator_of_signed
    (this : Transaction) (sig : Buffer) (Hsig : signature this = Some sig) :
  (isDelegated this = false → delegator this = Throw NOT_DELEGATED)
  ∧ (isDelegated this = true →
     ∀ hash originKey,
       getSignatureHash this None = Ok hash →
       secp256k1_recover hash (take 65 sig) = Ok originKey →
       (address_isAddress (address_fromPublicKey originKey) = false →
        delegator this = Throw INVALID_ADDRESS)
       ∧ (address_isAddress (address_fromPublicKey originKey) = true →
          delegator this
          = (delegatorKey ←
               secp256k1_recover
                 (blake2b256
                    (hash ++ Buf.fromHex
                               (Str.slice 2 (address_fromPublicKey originKey))))
                 (drop 65 sig);
             Ok (address_fromPublicKey delegatorKey)))).
Proof.
  split.
  - intros Hnot. unfold delegator. now rewrite Hnot.
  - intros Hdelegated hash originKey Hhash Hrecover.
    rewrite (delegator_unfold this sig Hsig Hdelegated).
    rewrite (origin_unfold this sig Hsig), Hhash.
    cbn [mbind result_bind]. rewrite Hrecover. cbn [mbind result_bind].
    rewrite getSignatureHash_Some_unfold, Hhash.
    split; intros ->; reflexivity.
Qed.

(** X10. [origin] and [id] read only the first 65 bytes of the signature:
    two transactions with the same body whose signatures agree on these bytes
    have the same origin and the same id. *)
Theorem origin_id_first_65
    (b : TransactionBody) (sig1 sig2 : Buffer)
    (Hsame : take 65 sig1 = take 65 sig2) :
  origin {| body := b; signature := Some sig1 |}
  = origin {| body := b; signature := Some sig2 |}
  ∧ id {| body := b; signature := Some sig1 |}
    = id {| body := b; signature := Some sig2 |}.
Proof.
  assert (Horigin : origin {| body := b; signature := Some sig1 |}
                    = origin {| body := b; signature := Some sig2 |}).
  { rewrite (origin_unfold {| body := b; signature := Some sig1 |} sig1 eq_refl).
    rewrite (origin_unfold {| body := b; signature := Some sig2 |} sig2 eq_refl).
    rewrite Hsame. reflexivity. }
  split; [exact Horigin|].
  rewrite (id_unfold {| body := b; signature := Some sig1 |} sig1 eq_refl).
  rewrite (id_unfold {| body := b; signature := Some sig2 |} sig2 eq_refl).
  rewrite Horigin. reflexivity.
Qed.

(** X11. When the features kind refuses the features of the body, with an
    error [e], every operation that encodes fails with [e] and no profiler
    is asked: [encoded], the signing hash (after the address check of
    [delegateFor]), and on a signed transaction [origin], [id] and, on a
    delegated body, [delegator]. *)
Theorem reserved_encoding_failure_propagates
    (this : Transaction) (e : Error)
    (Hthrow : kind_encode TRANSACTION_FEATURES_KIND
                (featuresOf (body this)) (name TRANSACTION_FEATURES_KIND)
              = Throw e) :
  _encodeReservedField this = Throw e
  ∧ encoded this = Throw e
  ∧ getSignatureHash this None = Throw e
  ∧ (∀ addr, getSignatureHash this (Some addr)
             = if address_isAddress addr then Throw e else Throw INVALID_ADDRESS)
  ∧ (isSigned this = true → origin this = Throw e ∧ id this = Throw e)
  ∧ (isSigned this = true → isDelegated this = true → delegator this = Throw e).
Proof.
  assert (Hreserved : _encodeReservedField this = Throw e).
  { rewrite _encodeReservedField_unfold, Hthrow. reflexivity. }
  assert (Hencode : ∀ signed, _encode this signed = Throw e).
  { intros signed. unfold _encode. now rewrite Hreserved. }
  assert (Hhash : getSignatureHash this None = Throw e).
  { rewrite getSignatureHash_None_unfold, Hencode. reflexivity. }
  split; [exact Hreserved|]. split; [apply Hencode|]. split; [exact Hhash|].
  split.
  - intros addr. rewrite getSignatureHash_Some_unfold, Hhash. reflexivity.
  - unfold isSigned.
    destruct (signature this) as [sig|] eqn:Hsig; [|split; discriminate].
    assert (Horigin : origin this = Throw e).
    { rewrite (origin_unfold this sig Hsig), Hhash. reflexivity. }
    split.
    + intros _. split; [exact Horigin|].
      rewrite (id_unfold this sig Hsig), Hhash. reflexivity.
    + intros _ Hdelegated.
      rewrite (delegator_unfold this sig Hsig Hdelegated), Horigin. reflexivity.
Qed.

(** X12. Empty extension slots at the end of [unused] do not reach the wire:
    two bodies that differ only in [reserved], with the same features and
    with unused entries that differ by empty blobs at the end, have the same
    delegation flag, the same encoded reserved field, the same encodings and
    the same signing hashes. *)
Theorem reserved_trailing_empty_same_encoding
    (b : TransactionBody) (r1 r2 : option Reserved) (sig : option Buffer) (n : nat)
    (Hfeatures : featuresOf (withReserved b r1) = featuresOf (withReserved b r2))
    (Hunused : unusedOf (withReserved b r2)
               = unusedOf (withReserved b r1) ++ replicate n []) :
  _isDelegated (withReserved b r1) = _isDelegated (withReserved b r2)
  ∧ _encodeReservedField {| body := withReserved b r1; signature := sig |}
    = _encodeReservedField {| body := withReserved b r2; signature := sig |}
  ∧ encoded {| body := withReserved b r1; signature := sig |}
    = encoded {| body := withReserved b r2; signature := sig |}
  ∧ ∀ delegateFor,
      getSignatureHash {| body := withReserved b r1; signature := sig |} delegateFor
      = getSignatureHash {| body := withReserved b r2; signature := sig |} delegateFor.
Proof.
  assert (Hreserved :
    _encodeReservedField {| body := withReserved b r1; signature := sig |}
    = _encodeReservedField {| body := withReserved b r2; signature := sig |}).
  { rewrite !_encodeReservedField_unfold. cbn [body].
    rewrite <- Hfeatures, Hunused.
    destruct (kind_encode TRANSACTION_FEATURES_KIND
                (featuresOf (withReserved b r1)) (name TRANSACTION_FEATURES_KIND))
      as [encodedFeatures|err]; [|reflexivity].
    cbn [mbind result_bind]. f_equal. symmetry.
    apply (trimFeaturesList_app_empty
             (encodedFeatures :: unusedOf (withReserved b r1)) n). }
  assert (Hencode : ∀ signed,
    _encode {| body := withReserved b r1; signature := sig |} signed
    = _encode {| body := withReserved b r2; signature := sig |} signed).
  { intros signed. unfold _encode. rewrite Hreserved. reflexivity. }
  split; [|split; [exact Hreserved|split]].
  - now rewrite !_isDelegated_testbit, Hfeatures.
  - unfold encoded. apply Hencode.
  - intros delegateFor. unfold getSignatureHash. now rewrite Hencode.
Qed.

End TransactionComposition.

(* ===================================================================== *)
(** ** Running the class on concrete transactions *)
(* ===================================================================== *)

#[local] Existing Instance Fixture.imports.

Example body0_constructs :
  new_Transaction Fixture.body0 None
  = Ok {| body := Fixture.body0; signature := None |}.
Proof. reflexivity. Qed.

Example isDelegated_features_6 :
  _isDelegated
    {| chainTag := None; blockRef := None; expiration := None; clauses := None;
       gasPriceCoef := None; gas := None; dependsOn := None; nonce := None;
       reserved := Some {| features := Some 6; unused := None |} |} = false.
Proof. reflexivity. Qed.

Example isDelegated_features_minus_1 :
  _isDelegated
    {| chainTag := None; blockRef := None; expiration := None; clauses := None;
       gasPriceCoef := None; gas := None; dependsOn := None; nonce := None;
       reserved := Some {| features := Some (-1); unused := None |} |} = true.
Proof. reflexivity. Qed.

Example trim_keeps_shielded_entries :
  trimFeaturesList [[]; []; [x01]; []; []] = [[]; []; [x01]].
Proof. reflexivity. Qed.

Example reserved_field_default :
  _encodeReservedField {| body := Fixture.body0; signature := None |} = Ok [].
Proof. reflexivity. Qed.

Example reserved_field_delegated :
  _encodeReservedField {| body := Fixture.delegatedBody0; signature := None |}
  = Ok [[x01]].
Proof. reflexivity. Qed.

Example signature_hash_bad_address :
  getSignatureHash {| body := Fixture.body0; signature := None |} (Some "0x1234"%string)
  = Throw INVALID_ADDRESS.
Proof. reflexivity. Qed.

Example delegator_not_delegated :
  delegator {| body := Fixture.body0; signature := Some Fixture.signature65 |}
  = Throw NOT_DELEGATED.
Proof. reflexivity. Qed.

Example delegator_unsigned_delegated :
  delegator {| body := Fixture.delegatedBody0; signature := None |}
  = Throw NOT_SIGNED.
Proof. reflexivity. Qed.

(** C1 at the first body and a well-formed address. *)
Lemma getSignatureHash_delegateFor_witness :
  address_isAddress Fixture.address0 = true
  ∧ getSignatureHash {| body := Fixture.body0; signature := None |}
      (Some Fixture.address0)
    = (hash ← getSignatureHash {| body := Fixture.body0; signature := None |} None;
       Ok (blake2b256 (hash ++ Buf.fromHex (Str.slice 2 Fixture.address0)))).
Proof.
  assert (Haddr : address_isAddress Fixture.address0 = true) by reflexivity.
  split; [exact Haddr|].
  destruct (getSignatureHash_delegateFor
              {| body := Fixture.body0; signature := None |} Fixture.address0)
    as (_ & _ & Hdelegated & _).
  exact (Hdelegated Haddr).
Defined.

(** C2 at the first body: 65 bytes are accepted, one byte is not. *)
Lemma new_Transaction_signature_length_witness :
  _isValidBody Fixture.body0 = true
  ∧ new_Transaction Fixture.body0 (Some Fixture.signature65)
    = Ok {| body := Fixture.body0; signature := Some Fixture.signature65 |}
  ∧ new_Transaction Fixture.body0 (Some [x01]) = Throw INVALID_SIGNATURE.
Proof.
  assert (Hbody : _isValidBody Fixture.body0 = true) by reflexivity.
  split; [exact Hbody|].
  destruct (new_Transaction_signature_length Fixture.body0 Fixture.signature65 Hbody)
    as (_ & Haccept & _).
  destruct (new_Transaction_signature_length Fixture.body0 [x01] Hbody)
    as (_ & _ & Hreject).
  split; [apply Haccept; reflexivity|apply Hreject; discriminate].
Defined.

(** C5 with the compact numeric kind for the features. *)
Lemma _encodeReservedField_trimmed_witness :
  kind_encode TRANSACTION_FEATURES_KIND 0 (name TRANSACTION_FEATURES_KIND) = Ok []
  ∧ _encodeReservedField {| body := Fixture.body0; signature := None |} = Ok [].
Proof.
  assert (Hzero : kind_encode TRANSACTION_FEATURES_KIND 0
                    (name TRANSACTION_FEATURES_KIND) = Ok []) by reflexivity.
  split; [exact Hzero|].
  destruct (_encodeReservedField_trimmed
              {| body := Fixture.body0; signature := None |})
    as (_ & _ & Hdefault).
  apply Hdefault; [exact Hzero|]. left. reflexivity.
Defined.

(** C6 at the first body. *)
Lemma new_Transaction_body_check_witness :
  bodyComplete Fixture.body0
  ∧ new_Transaction Fixture.body0 None
    = Ok {| body := Fixture.body0; signature := None |}.
Proof.
  assert (Hvalid : _isValidBody Fixture.body0 = true) by reflexivity.
  destruct (new_Transaction_body_check Fixture.body0 None) as (Hiff & _ & Hok & _).
  assert (Hc : bodyComplete Fixture.body0) by (apply Hiff; exact Hvalid).
  split; [exact Hc|]. apply Hok. exact Hc.
Defined.

(** C7 as stated fails on the first body without signature: the body is
    not delegated, and [delegator] fails with the not-delegated error. *)
Lemma unsigned_delegator_counterexample :
  new_Transaction Fixture.body0 None
  = Ok {| body := Fixture.body0; signature := None |}
  ∧ signature {| body := Fixture.body0; signature := None |} = None
  ∧ delegator {| body := Fixture.body0; signature := None |} = Throw NOT_DELEGATED
  ∧ delegator {| body := Fixture.body0; signature := None |} ≠ Throw NOT_SIGNED.
Proof.
  split; [reflexivity|]. split; [reflexivity|]. split; [reflexivity|].
  discriminate.
Qed.

(** The amended C7 on the delegated body without signature. *)
Lemma unsigned_access_witness :
  signature {| body := Fixture.delegatedBody0; signature := None |} = None
  ∧ origin {| body := Fixture.delegatedBody0; signature := None |} = Throw NOT_SIGNED
  ∧ id {| body := Fixture.delegatedBody0; signature := None |} = Throw NOT_SIGNED
  ∧ delegator {| body := Fixture.delegatedBody0; signature := None |}
    = Throw NOT_SIGNED.
Proof.
  split; [reflexivity|].
  exact (unsigned_access
           {| body := Fixture.delegatedBody0; signature := None |} eq_refl).
Defined.

(** C8 on the first body with a 65-byte signature. *)
Lemma id_of_signed_witness :
  ∃ hash publicKey,
    getSignatureHash
      {| body := Fixture.body0; signature := Some Fixture.signature65 |} None
    = Ok hash
    ∧ secp256k1_recover hash (take 65 Fixture.signature65) = Ok publicKey
    ∧ id {| body := Fixture.body0; signature := Some Fixture.signature65 |}
      = Ok (blake2b256_hex
              (hash ++ Buf.fromHex (Str.slice 2 (address_fromPublicKey publicKey)))).
Proof.
  eexists. eexists.
  assert (Hhash :
    getSignatureHash
      {| body := Fixture.body0; signature := Some Fixture.signature65 |} None
    = Ok (Fixture.digest
            (x4a :: Buf.fromHex "00634b0a00639801"))) by reflexivity.
  split; [exact Hhash|].
  assert (Hrecover :
    secp256k1_recover (Fixture.digest (x4a :: Buf.fromHex "00634b0a00639801"))
      (take 65 Fixture.signature65)
    = Ok (take 19 Fixture.signature65
          ++ [Fixture.sumByte (Fixture.digest (x4a :: Buf.fromHex "00634b0a00639801"))]))
    by reflexivity.
  split; [exact Hrecover|].
  destruct (proj1 (id_of_signed
                     {| body := Fixture.body0;
                        signature := Some Fixture.signature65 |})
              Fixture.signature65 eq_refl)
    as (_ & _ & Hid).
  exact (proj2 (Hid _ _ Hhash Hrecover)).
Defined.

(** C10 on the first body. *)
Lemma dependsOn_presence_witness :
  otherFieldsComplete Fixture.body0
  ∧ new_Transaction (withDependsOn Fixture.body0 (Some None)) None
    = Ok {| body := withDependsOn Fixture.body0 (Some None); signature := None |}
  ∧ new_Transaction (withDependsOn Fixture.body0 (Some (Some "not an id"%string))) None
    = Ok {| body := withDependsOn Fixture.body0 (Some (Some "not an id"%string));
            signature := None |}
  ∧ new_Transaction (withDependsOn Fixture.body0 None) None
    = Throw INVALID_TRANSACTION_BODY.
Proof.
  assert (Hother : otherFieldsComplete Fixture.body0).
  { repeat split; try discriminate.
    - exists 74. repeat split; [discriminate|discriminate].
    - eexists. repeat split. }
  split; [exact Hother|].
  destruct (dependsOn_presence Fixture.body0 Hother) as (Hsome & _ & Hnone).
  split; [apply Hsome|]. split; [apply Hsome|apply Hnone].
Defined.

(** ** Running the further properties *)

Example delegator_signed_delegated :
  delegator {| body := Fixture.delegatedBody0;
               signature := Some Samples.signature130 |}
  = Ok "0x0909090909090909090909090909090909090983"%string.
Proof. vm_compute. reflexivity. Qed.

Example encoded_negative_features :
  encoded {| body := Samples.negativeFeaturesBody; signature := None |}
  = Throw (RlpError "reserved.features" "expected a non-negative integer").
Proof. reflexivity. Qed.

(** X4 at [00 00 2a 00] and width 4. *)
Lemma encodeCompactFixedHexBlob_preserves_value_witness :
  Buf.length [x00; x00; x2a; x00] <= 4
  ∧ decodeBufferToHexWithLeadingZeros
      (encodeCompactFixedHexBlob [x00; x00; x2a; x00]) 4
    = Ok ("0x" +:+ Buf.toHex [x00; x00; x2a; x00]).
Proof.
  assert (Hlen : Buf.length [x00; x00; x2a; x00] <= 4) by (vm_compute; discriminate).
  split; [exact Hlen|].
  destruct (encodeCompactFixedHexBlob_preserves_value
              [x00; x00; x2a; x00] "blockRef" 4 Hlen) as (_ & _ & Hfull).
  apply Hfull. reflexivity.
Defined.

(** X5 at [01 ab] and width 8. *)
Lemma decodeBufferToHexWithLeadingZeros_injective_witness :
  assertCompactFixedHexBlobBuffer [x01; xab] "blockRef" 8 = Ok tt
  ∧ decodeBufferToHexWithLeadingZeros [x01; xab] 8
    = decodeBufferToHexWithLeadingZeros [x01; xab] 8
  ∧ [x01; xab] = [x01; xab].
Proof.
  split; [reflexivity|]. split; [reflexivity|].
  exact (decodeBufferToHexWithLeadingZeros_injective
           [x01; xab] [x01; xab] "blockRef" 8 eq_refl eq_refl eq_refl).
Defined.

(** X7 on the delegated body with a 130-byte signature. *)
Lemma new_Transaction_signed_slices_witness :
  new_Transaction Fixture.delegatedBody0 (Some Samples.signature130)
  = Ok {| body := Fixture.delegatedBody0; signature := Some Samples.signature130 |}
  ∧ length (Buf.subarray Samples.signature130 0 65) = 65%nat
  ∧ length (Buf.subarray Samples.signature130 65 (Buf.length Samples.signature130))
    = 65%nat.
Proof.
  assert (Hnew :
    new_Transaction Fixture.delegatedBody0 (Some Samples.signature130)
    = Ok {| body := Fixture.delegatedBody0;
            signature := Some Samples.signature130 |}) by reflexivity.
  split; [exact Hnew|].
  destruct (new_Transaction_signed_slices _ _ _ Hnew)
    as (_ & _ & _ & _ & Hfirst & Hsecond & _).
  split; [exact Hfirst|]. apply Hsecond. reflexivity.
Defined.

(** X9 on the delegated body with a 130-byte signature. *)
Lemma delegator_of_signed_witness :
  signature {| body := Fixture.delegatedBody0;
               signature := Some Samples.signature130 |}
  = Some Samples.signature130
  ∧ ∃ hash originKey,
      getSignatureHash {| body := Fixture.delegatedBody0;
                          signature := Some Samples.signature130 |} None
      = Ok hash
      ∧ secp256k1_recover hash (take 65 Samples.signature130) = Ok originKey
      ∧ delegator {| body := Fixture.delegatedBody0;
                     signature := Some Samples.signature130 |}
        = (delegatorKey ←
             secp256k1_recover
               (blake2b256
                  (hash ++ Buf.fromHex
                             (Str.slice 2 (address_fromPublicKey originKey))))
               (drop 65 Samples.signature130);
           Ok (address_fromPublicKey delegatorKey)).
Proof.
  split; [reflexivity|].
  eexists. eexists.
  split; [reflexivity|]. split; [reflexivity|].
  refine (proj2 (proj2 (delegator_of_signed
                          {| body := Fixture.delegatedBody0;
                             signature := Some Samples.signature130 |}
                          Samples.signature130 eq_refl)
                   eq_refl _ _ eq_refl eq_refl) eq_refl).
Defined.

(** X10 on two signatures with the same first half. *)
Lemma origin_id_first_65_witness :
  take 65 Samples.signature130 = take 65 Samples.signature130b
  ∧ id {| body := Fixture.delegatedBody0; signature := Some Samples.signature130 |}
    = id {| body := Fixture.delegatedBody0; signature := Some Samples.signature130b |}.
Proof.
  assert (Hsame : take 65 Samples.signature130 = take 65 Samples.signature130b)
    by reflexivity.
  split; [exact Hsame|].
  exact (proj2 (origin_id_first_65 Fixture.delegatedBody0 _ _ Hsame)).
Defined.

(** X11 on a body with negative features. *)
Lemma reserved_encoding_failure_propagates_witness :
  kind_encode TRANSACTION_FEATURES_KIND
    (featuresOf Samples.negativeFeaturesBody) (name TRANSACTION_FEATURES_KIND)
  = Throw (RlpError "reserved.features" "expected a non-negative integer")
  ∧ getSignatureHash {| body := Samples.negativeFeaturesBody; signature := None |} None
    = Throw (RlpError "reserved.features" "expected a non-negative integer").
Proof.
  assert (Hthrow :
    kind_encode TRANSACTION_FEATURES_KIND
      (featuresOf Samples.negativeFeaturesBody) (name TRANSACTION_FEATURES_KIND)
    = Throw (RlpError "reserved.features" "expected a non-negative integer"))
    by reflexivity.
  split; [exact Hthrow|].
  destruct (reserved_encoding_failure_propagates
              {| body := Samples.negativeFeaturesBody; signature := None |} _ Hthrow)
    as (_ & _ & Hhash & _).
  exact Hhash.
Defined.

(** X12 on the first body: [reserved] absent, and [reserved] with the default
    features and two empty extension slots. *)
Lemma reserved_trailing_empty_same_encoding_witness :
  featuresOf (withReserved Fixture.body0 None)
  = featuresOf Samples.defaultReservedBody
  ∧ unusedOf Samples.defaultReservedBody
    = unusedOf (withReserved Fixture.body0 None) ++ replicate 2 []
  ∧ getSignatureHash
      {| body := withReserved Fixture.body0 None; signature := None |} None
    = getSignatureHash
        {| body := Samples.defaultReservedBody; signature := None |} None.
Proof.
  split; [reflexivity|]. split; [reflexivity|].
  destruct (reserved_trailing_empty_same_encoding
              Fixture.body0 None
              (Some {| features := Some 0; unused := Some [[]; []] |})
              None 2 eq_refl eq_refl)
    as (_ & _ & _ & Hhash).
  apply Hhash.
Defined.
